(** * MatRisk: synthetic maternity cohort, logistic regression, fairness audit

    A shallow embedding of [src/utils/dataGenerator.ts] (the cohort
    generator), [src/utils/mlModel.ts] (the logistic-regression class and
    the feature encoder) and of the audit computations of [src/App.tsx],
    followed by the properties of the specification that hold of them.

    JavaScript numbers are IEEE 754 binary64 values; they are modelled by
    Rocq's primitive [float], whose [+ - * /] and comparisons are the
    binary64 operations with round-to-nearest-even.  [NaN], the signed
    zeros and the infinities therefore behave as they do in the program. *)

From Stdlib Require Import ZArith List Bool Lia Floats Uint63 FinFun.
Import ListNotations.

Set Warnings "-inexact-float".
Local Open Scope float_scope.

(** ** JavaScript values and array idioms used by the sources *)

Module JS.

(** What a call either returns or throws. *)
Inductive exn : Type := TypeError.

Inductive outcome (A : Type) : Type :=
| Returns (a : A)
| Throws (e : exn).

Arguments Returns {A} a.
Arguments Throws {A} e.

(** An array length or a loop counter used as a number.  Lengths are
    below 2^32 in JavaScript, far inside the range where the conversion
    is exact. *)
Definition num (n : nat) : float := of_uint63 (Uint63.of_Z (Z.of_nat n)).

(** [a[i]] read where a number is expected: past the end the read gives
    [undefined], and arithmetic on [undefined] gives [NaN]. *)
Definition get (a : list float) (i : nat) : float := nth i a nan.

(** [a[i] = v].  Inside the array the element is replaced; past the end
    the array grows, the skipped slots reading as [undefined]. *)
Fixpoint set (a : list float) (i : nat) (v : float) : list float :=
  match i, a with
  | O, [] => [v]
  | O, _ :: t => v :: t
  | S i', [] => nan :: set [] i' v
  | S i', h :: t => h :: set t i' v
  end.

(** [new Array(n).fill(0)] *)
Definition zeros (n : nat) : list float := repeat 0 n.

(** [for (let i = 0; i < n; i++) body], the loop state passed along. *)
Definition for_range {S : Type} (n : nat) (body : nat -> S -> S) (s : S) : S :=
  fold_left (fun st i => body i st) (seq 0 n) s.

(** [a.reduce((acc, val, idx) => f(acc, val, idx), init)] *)
Fixpoint reduce_from (f : float -> float -> nat -> float) (i : nat)
  (a : list float) (acc : float) : float :=
  match a with
  | [] => acc
  | val :: t => reduce_from f (S i) t (f acc val i)
  end.

Definition reduce (f : float -> float -> nat -> float) (a : list float)
  (init : float) : float :=
  reduce_from f 0 a init.

(** The numbers that count as false in [x || d] and [x ? a : b]:
    [0], [-0] and [NaN]. *)
Definition falsy (x : float) : bool := (x =? 0) || is_nan x.

(** [v || 0] for a possibly missing number ([None] is [undefined]). *)
Definition or_zero (v : option float) : float :=
  match v with
  | Some x => if falsy x then 0 else x
  | None => 0
  end.

(** [Math.floor].  A finite non-integral value [m * 2^e] (with [e < 0])
    has magnitude below 2^53, so its floor is converted back exactly. *)
Definition Math_floor (x : float) : float :=
  match Prim2SF x with
  | S754_finite s m e =>
      if (0 <=? e)%Z then x
      else
        let d := (2 ^ (- e))%Z in
        if s then - of_uint63 (Uint63.of_Z ((Zpos m + d - 1) / d))
        else of_uint63 (Uint63.of_Z (Zpos m / d))
  | _ => x
  end.

(** [Math.exp] is specified by ECMAScript only up to an
    implementation-approximated result, with fixed values at [NaN], the
    zeros and the infinities, so no definition here can be the
    [Math.exp] of an engine, and the development is parametric in it.
    A closed statement still needs one function to be evaluated with:
    [exp_instance] has the five fixed values, 0 and infinity beyond the
    range of binary64, and in between an approximation of [e^x]
    (argument halved ten times, a degree-8 Taylor polynomial, ten
    squarings) that differs from an engine's result in the last digits.
    No closed statement of this development depends on its values
    elsewhere than at [-0] and at [NaN], where the result is fixed. *)
Definition exp_poly (t : float) : float :=
  1 + t * (1 + t / 2 * (1 + t / 3 * (1 + t / 4 * (1 + t / 5 *
    (1 + t / 6 * (1 + t / 7 * (1 + t / 8))))))).

Definition exp_instance (x : float) : float :=
  if is_nan x then nan
  else if x =? 0 then 1
  else if 710 <? x then infinity
  else if x <? -746 then 0
  else Nat.iter 10 (fun v => v * v) (exp_poly (x / 1024)).

End JS.

Import JS.

(** ** dataGenerator.ts *)

Inductive DeliveryType : Type := Vaginal | Cesarean.
Inductive Location : Type := Urban | Rural.

Definition DeliveryType_eqb (a b : DeliveryType) : bool :=
  match a, b with
  | Vaginal, Vaginal | Cesarean, Cesarean => true
  | _, _ => false
  end.

Definition Location_eqb (a b : Location) : bool :=
  match a, b with
  | Urban, Urban | Rural, Rural => true
  | _, _ => false
  end.

(** [interface Patient].  The optional [riskScore] is never written by
    the sources and is left out.  [id] is the loop counter plus one, an
    exact integer. *)
Record Patient : Type := {
  id : Z;
  age : float;
  deliveryType : DeliveryType;
  laborDuration : float;
  complications : bool;
  los : float;
  location : Location;
  readmitted : bool
}.

(** The outcomes of the successive calls of [Math.random()]. *)
Definition Rand : Type := nat -> float.

(** A computation that draws from the random source: it is given the
    number of draws made so far and returns the new count. *)
Definition Gen (A : Type) : Type := nat -> A * nat.

Definition ret {A : Type} (a : A) : Gen A := fun n => (a, n).

Definition bind {A B : Type} (g : Gen A) (k : A -> Gen B) : Gen B :=
  fun n => let (a, n') := g n in k a n'.

Definition Math_random (rnd : Rand) : Gen float := fun n => (rnd n, S n).

Notation "x <- g ;; k" := (bind g (fun x => k))
  (at level 61, g at next level, right associativity).

(** Lines 31-36: the ground-truth readmission probability. *)
Definition readmissionProb (age : float) (deliveryType : DeliveryType)
  (complications : bool) (los : float) (location : Location) : float :=
  let prob := 0.05 in
  let prob := if DeliveryType_eqb deliveryType Cesarean then prob + 0.15 else prob in
  let prob := if complications then prob + 0.25 else prob in
  let prob := if Location_eqb location Rural then prob + 0.10 else prob in
  let prob := if 35 <? age then prob + 0.10 else prob in
  let prob :=
    if (los <? 3) && DeliveryType_eqb deliveryType Vaginal then prob + 0.15 else prob in
  prob.

(** Lines 18-49: the body of the loop, for the counter [i]. *)
Definition genPatient (rnd : Rand) (i : nat) : Gen Patient :=
  r1 <- Math_random rnd ;;
  let age := Math_floor (r1 * (45 - 18 + 1)) + 18 in
  r2 <- Math_random rnd ;;
  let deliveryType := if 0.7 <? r2 then Cesarean else Vaginal in
  r3 <- Math_random rnd ;;
  let location := if 0.4 <? r3 then Urban else Rural in
  r4 <- Math_random rnd ;;
  let laborDuration := Math_floor (r4 * 20) + 4 in
  r5 <- Math_random rnd ;;
  let complications := 0.8 <? r5 in
  let los := if DeliveryType_eqb deliveryType Cesarean then 4 else 2 in
  let los := if complications then los + 2 else los in
  r6 <- Math_random rnd ;;
  let los := los + Math_floor (r6 * 2) in
  let prob := readmissionProb age deliveryType complications los location in
  r7 <- Math_random rnd ;;
  let readmitted := r7 <? prob in
  ret {| id := Z.of_nat i + 1;
         age := age;
         deliveryType := deliveryType;
         laborDuration := laborDuration;
         complications := complications;
         los := los;
         location := location;
         readmitted := readmitted |}.

(** The loop of [generateMaternityData], with the draws made so far. *)
Definition generateLoop (rnd : Rand) (count : nat) : list Patient * nat :=
  for_range count
    (fun i '(patients, n) =>
       let (p, n') := genPatient rnd i n in (patients ++ [p], n'))
    ([], O).

Definition generateMaternityData (rnd : Rand) (count : nat) : list Patient :=
  fst (generateLoop rnd count).

(** ** mlModel.ts *)

(** The fields of [class LogisticRegression]; [iterations] is the bound
    of the counting loop of [fit], a natural number. *)
Record LogisticRegression : Type := {
  weights : list float;
  bias : float;
  learningRate : float;
  iterations : nat
}.

(** [new LogisticRegression(learningRate, iterations)]: the field
    initialisers run first (an empty weight array and a zero bias), then
    the constructor stores its two arguments. *)
Definition new_LogisticRegression (learningRate : float) (iterations : nat)
  : LogisticRegression :=
  {| weights := [];
     bias := 0;
     learningRate := learningRate;
     iterations := iterations |}.

(** The constructor's default arguments. *)
Definition default_LogisticRegression : LogisticRegression :=
  new_LogisticRegression 0.1 1000.

(** [preprocessPatient] *)
Definition preprocessPatient (p : Patient) : list float :=
  [ age p / 45;
    if DeliveryType_eqb (deliveryType p) Cesarean then 1 else 0;
    laborDuration p / 24;
    if complications p then 1 else 0;
    los p / 10;
    if Location_eqb (location p) Rural then 1 else 0 ].

Section Model.

(** [Math.exp] *)
Variable Math_exp : float -> float.

Definition sigmoid (z : float) : float := 1 / (1 + Math_exp (- z)).

(** [x.reduce((acc, val, idx) => acc + val * this.weights[idx], 0) + this.bias] *)
Definition linearModel (m : LogisticRegression) (x : list float) : float :=
  reduce (fun acc val idx => acc + val * get (weights m) idx) x 0 + bias m.

(** Lines 29-38: the pass over the samples, accumulating [dw] and [db]. *)
Definition accumulate (m : LogisticRegression) (X : list (list float))
  (y : list float) (numSamples numFeatures : nat) : list float * float :=
  for_range numSamples
    (fun j '(dw, db) =>
       let Xj := nth j X [] in
       let yPred := sigmoid (linearModel m Xj) in
       let diff := yPred - get y j in
       let dw :=
         for_range numFeatures
           (fun k dw => set dw k (get dw k + diff * get Xj k)) dw in
       (dw, db + diff))
    (zeros numFeatures, 0).

(** Lines 26-43: one iteration of the outer loop. *)
Definition fitIteration (X : list (list float)) (y : list float)
  (numSamples numFeatures : nat) (m : LogisticRegression) : LogisticRegression :=
  let '(dw, db) := accumulate m X y numSamples numFeatures in
  let w :=
    for_range numFeatures
      (fun k w => set w k (get w k - (learningRate m * get dw k) / num numSamples))
      (weights m) in
  {| weights := w;
     bias := bias m - (learningRate m * db) / num numSamples;
     learningRate := learningRate m;
     iterations := iterations m |}.

(** [fit], a method that updates the object: the result is the object
    afterwards together with what the call did.  On an empty [X] the read
    [X[0].length] throws before any field is written. *)
Definition fit (m : LogisticRegression) (X : list (list float)) (y : list float)
  : LogisticRegression * outcome unit :=
  let numSamples := length X in
  match X with
  | [] => (m, Throws TypeError)
  | X0 :: _ =>
      let numFeatures := length X0 in
      let m0 := {| weights := zeros numFeatures;
                   bias := 0;
                   learningRate := learningRate m;
                   iterations := iterations m |} in
      (for_range (iterations m)
         (fun _ m' => fitIteration X y numSamples numFeatures m') m0,
       Returns tt)
  end.

Definition predictProba (m : LogisticRegression) (x : list float) : float :=
  sigmoid (linearModel m x).

Definition predict (m : LogisticRegression) (x : list float) : float :=
  if 0.5 <=? predictProba m x then 1 else 0.

(** ** App.tsx: the ethics audit *)

(** [auditGroup] (lines 102-109), for the model and the cohort it closes
    over. *)
Definition auditGroup (model : LogisticRegression) (data : list Patient)
  (filter : Patient -> bool) : float :=
  let group := List.filter filter data in
  let correct :=
    length
      (List.filter
         (fun p =>
            let pred := predict model (preprocessPatient p) in
            pred =? (if readmitted p then 1 else 0))
         group) in
  (num correct / num (length group)) * 100.

Record EthicsAudit : Type := {
  accVaginal : float;
  accCesarean : float;
  accUrban : float;
  accRural : float
}.

(** [ethicsAudit] (lines 99-117); [None] is [null]. *)
Definition ethicsAudit (model : option LogisticRegression) (data : list Patient)
  : option EthicsAudit :=
  match model with
  | None => None
  | Some model =>
      if Nat.eqb (length data) 0 then None
      else
        Some {| accVaginal :=
                  auditGroup model data (fun p => DeliveryType_eqb (deliveryType p) Vaginal);
                accCesarean :=
                  auditGroup model data (fun p => DeliveryType_eqb (deliveryType p) Cesarean);
                accUrban :=
                  auditGroup model data (fun p => Location_eqb (location p) Urban);
                accRural :=
                  auditGroup model data (fun p => Location_eqb (location p) Rural) |}
  end.

(** The training run of the start-up effect (lines 59-63). *)
Definition trainModel (rawData : list Patient) : LogisticRegression * outcome unit :=
  let lr := new_LogisticRegression 0.5 2000 in
  let X := map preprocessPatient rawData in
  let y := map (fun p => if readmitted p then 1 else 0) rawData in
  fit lr X y.

End Model.

(** [ethicsAudit?.f]: [undefined] when the audit is [null]. *)
Definition field (a : option EthicsAudit) (f : EthicsAudit -> float) : option float :=
  option_map f a.

(** [Math.abs((ethicsAudit?.f || 0) - (ethicsAudit?.g || 0))] *)
Definition accuracyGap (a : option EthicsAudit) (f g : EthicsAudit -> float) : float :=
  abs (or_zero (field a f) - or_zero (field a g)).

(** The condition of the "Bias Flag Status" panel (lines 553-554). *)
Definition biasFlag (a : option EthicsAudit) : bool :=
  (10 <? accuracyGap a accVaginal accCesarean)
  || (10 <? accuracyGap a accUrban accRural).

(** ** The gradient descent in the words of the specification

    These definitions follow section 4.3 of the specification, not the
    code: sums over the batch, a dot product, and one update per round.
    A sum is taken in sample order starting from zero. *)

Section Specification.

Variable Math_exp : float -> float.

Definition fsum (l : list float) : float := fold_left PrimFloat.add l 0.

(** [dot(weights, features)] *)
Definition dot (w x : list float) : float :=
  fsum (map (fun wx => fst wx * snd wx) (combine w x)).

(** [error = sigmoid(dot(weights, features) + bias) - label] *)
Definition sampleError (w : list float) (b : float) (sample : list float * float)
  : float :=
  sigmoid Math_exp (dot w (fst sample) + b) - snd sample.

(** [gradient_k], the sum over the batch of [error * feature_k] *)
Definition gradient (w : list float) (b : float)
  (batch : list (list float * float)) (k : nat) : float :=
  fsum (map (fun sample => sampleError w b sample * get (fst sample) k) batch).

(** [biasGradient], the sum over the batch of [error] *)
Definition biasGradient (w : list float) (b : float)
  (batch : list (list float * float)) : float :=
  fsum (map (sampleError w b) batch).

(** One round: [weight_k -= learningRate * gradient_k / sampleCount] and
    [bias -= learningRate * biasGradient / sampleCount]. *)
Definition descentRound (rate : float) (batch : list (list float * float))
  (wb : list float * float) : list float * float :=
  let (w, b) := wb in
  let sampleCount := num (length batch) in
  (map (fun k => get w k - rate * gradient w b batch k / sampleCount)
     (seq 0 (length w)),
   b - rate * biasGradient w b batch / sampleCount).

(** Zero weights and zero bias, then [rounds] rounds. *)
Definition descent (rate : float) (rounds : nat) (width : nat)
  (batch : list (list float * float)) : list float * float :=
  Nat.iter rounds (descentRound rate batch) (zeros width, 0).

End Specification.

(** ** Predicates used in the statements *)

(** The contract of [Math.random()]: every outcome is in [0, 1). *)
Definition unit_draws (rnd : Rand) : Prop :=
  forall n, (0 <=? rnd n) = true /\ (rnd n <? 1) = true.

(** Neither [NaN] nor an infinity. *)
Definition finite (x : float) : bool := negb (is_nan x) && negb (is_infinity x).

(** [0 <= v <= 1] *)
Definition in_unit_interval (v : float) : bool := (0 <=? v) && (v <=? 1).

(** The range checks on a generated record, as the program would
    evaluate them. *)
Definition fieldRanges (p : Patient) : bool :=
  (18 <=? age p) && (age p <=? 45)
  && (4 <=? laborDuration p) && (laborDuration p <=? 23)
  && (2 <=? los p).

(** A feature matrix in the sense of the specification: every row has
    the width of the first one. *)
Definition uniform_rows (X : list (list float)) : Prop :=
  Forall (fun row => length row = length (hd [] X)) X.

(** The values [Math.floor] takes on a non-negative product below [N]:
    the integers [0 .. N-1], and [-0] for a draw that is [-0]. *)
Definition floorsBelow (N : nat) : list float := neg_zero :: map num (seq 0 N).

(** The values the three integer fields of a generated record range over. *)
Definition ageValues : list float := map (fun f => f + 18) (floorsBelow 28).

Definition laborDurationValues : list float := map (fun f => f + 4) (floorsBelow 20).

Definition losValues : list float :=
  flat_map (fun base => map (fun f => base + f) (floorsBelow 2)) [2; 4; 2 + 2; 4 + 2].

(** The condition of the bias flag as the specification states it,
    directly on the four accuracies. *)
Definition gapExceeds (a b : float) : bool := 10 <? abs (a - b).

(** An accuracy with [NaN], the value of an empty subgroup, read as 0. *)
Definition nanToZero (x : float) : float := if is_nan x then 0 else x.

Definition nanToZeroAudit (a : EthicsAudit) : EthicsAudit :=
  {| accVaginal := nanToZero (accVaginal a);
     accCesarean := nanToZero (accCesarean a);
     accUrban := nanToZero (accUrban a);
     accRural := nanToZero (accRural a) |}.

Definition biasFlagSpec (a : EthicsAudit) : bool :=
  gapExceeds (accVaginal a) (accCesarean a) || gapExceeds (accUrban a) (accRural a).

(** The additive rule of the specification for the readmission
    probability: a base of 0.05 and one increment per risk factor. *)
Definition additiveProb (p : Patient) : float :=
  0.05
  + (if DeliveryType_eqb (deliveryType p) Cesarean then 0.15 else 0)
  + (if complications p then 0.25 else 0)
  + (if Location_eqb (location p) Rural then 0.10 else 0)
  + (if 35 <? age p then 0.10 else 0)
  + (if DeliveryType_eqb (deliveryType p) Vaginal && (los p <? 3) then 0.15 else 0).

(** The audit of one subgroup as the specification states it: correct
    predictions among the matching records, over the matching records. *)
Definition subgroupAccuracy (Math_exp : float -> float) (model : LogisticRegression)
  (data : list Patient) (matches : Patient -> bool) : float :=
  let correct p :=
    predict Math_exp model (preprocessPatient p) =? (if readmitted p then 1 else 0) in
  num (length (List.filter (fun p => matches p && correct p) data))
  / num (length (List.filter matches data)) * 100.

(** ** Sample data

    A fixed cycle of draws, a small cohort and a small batch, on which
    the statements below are exercised. *)

Definition sampleDraws : list float :=
  [0.11; 0.83; 0.27; 0.64; 0.92; 0.5; 0.08;
   0.999; 0.35; 0.71; 0; 0.41; 0.75; 0.3].

Definition sampleRand : Rand := fun n => nth (n mod 14) sampleDraws 0.5.

Definition sampleBatch : list (list float) := [[0.5; 1]; [0.25; 0]; [1; 1]].

Definition sampleLabels : list float := [1; 0; 1].

Definition samplePatient : Patient :=
  {| id := 1; age := 30; deliveryType := Cesarean; laborDuration := 10;
     complications := false; los := 4; location := Urban; readmitted := true |}.

(** A cohort without any Vaginal delivery and without any Rural record. *)
Definition cesareanUrbanCohort : list Patient := [samplePatient].

(** A model as [fit] leaves it after zero iterations on six features. *)
Definition zeroModel : LogisticRegression :=
  {| weights := zeros 6; bias := 0; learningRate := 0.5; iterations := 0 |}.

(** ** App.tsx: exploratory statistics and the risk display *)







(** The three labels of lines 452-461. *)
Inductive RiskBand : Type := HighRisk | ModerateRisk | LowRisk.

(** [predictionResult > 0.6 ? 'High Risk' : predictionResult > 0.3 ?
    'Moderate Risk' : 'Low Risk'] *)
Definition riskBand (predictionResult : float) : RiskBand :=
  if 0.6 <? predictionResult then HighRisk
  else if 0.3 <? predictionResult then ModerateRisk
  else LowRisk.

(** The two texts of lines 464-466. *)
Inductive Advice : Type := ImmediateFollowUp | StandardMonitoring.

Definition advice (predictionResult : float) : Advice :=
  if 0.6 <? predictionResult then ImmediateFollowUp else StandardMonitoring.

(** [handlePredict] (lines 119-124), on the model, the form input and
    the result shown so far; it returns the result shown afterwards. *)
Definition handlePredict (Math_exp : float -> float)
  (model : option LogisticRegression) (predictionInput : Patient)
  (predictionResult : option float) : option float :=
  match model with
  | None => predictionResult
  | Some model =>
      let features := preprocessPatient predictionInput in
      let prob := predictProba Math_exp model features in
      Some prob
  end.

(** The bands in increasing order of risk. *)
Definition riskRank (b : RiskBand) : nat :=
  match b with LowRisk => 0 | ModerateRisk => 1 | HighRisk => 2 end.

(** An integer between [lo] and [hi], as a number. *)
Definition integerBetween (lo hi : nat) (x : float) : Prop :=
  exists n : nat, (lo <= n <= hi)%nat /\ x = num n.


(** The ground-truth label of a record as a number. *)
Definition label (p : Patient) : float := if readmitted p then 1 else 0.

(** An audit with the two subgroups of each pair exchanged. *)
Definition swapSubgroups (a : EthicsAudit) : EthicsAudit :=
  {| accVaginal := accCesarean a;
     accCesarean := accVaginal a;
     accUrban := accRural a;
     accRural := accUrban a |}.

(** ** Auxiliary notions of the proofs *)

(** A key whose lexicographic order is the order [SFcompare] decides
    on values other than [NaN]. *)
Definition orderKey (x : spec_float) : Z * Z * Z :=
  match x with
  | S754_zero _ => (0, 0, 0)%Z
  | S754_infinity false => (2, 0, 0)%Z
  | S754_infinity true => (-2, 0, 0)%Z
  | S754_nan => (0, 0, 0)%Z
  | S754_finite false m e => (1, e, Zpos m)%Z
  | S754_finite true m e => (-1, - e, Zneg m)%Z
  end.

Definition orderKey_lt (a b : Z * Z * Z) : Prop :=
  let '(a1, a2, a3) := a in
  let '(b1, b2, b3) := b in
  (a1 < b1 \/ (a1 = b1 /\ (a2 < b2 \/ (a2 = b2 /\ a3 < b3))))%Z.


(** * Facts about binary64 arithmetic

    Derived from the specification of the primitive operations
    ([FloatAxioms]): how a right shift truncates, how far rounding to
    nearest can move a product, and the special cases of zero. *)

Module Binary64.

Local Open Scope Z_scope.

Lemma digits2_pos_bounds (p : positive) :
  2 ^ (Zpos (digits2_pos p) - 1) <= Zpos p < 2 ^ Zpos (digits2_pos p).
Proof.
  induction p as [p IH | p IH |]; cbn [digits2_pos].
  - rewrite Pos2Z.inj_succ, (Pos2Z.inj_xI p).
    replace (Z.succ (Zpos (digits2_pos p)) - 1) with (Z.succ (Zpos (digits2_pos p) - 1)) by lia.
    rewrite !Z.pow_succ_r by lia. lia.
  - rewrite Pos2Z.inj_succ, (Pos2Z.inj_xO p).
    replace (Z.succ (Zpos (digits2_pos p)) - 1) with (Z.succ (Zpos (digits2_pos p) - 1)) by lia.
    rewrite !Z.pow_succ_r by lia. lia.
  - cbn. lia.
Qed.

Lemma digits2_pos_le (p : positive) (n : Z) :
  Zpos p < 2 ^ n -> Zpos (digits2_pos p) <= n.
Proof.
  intros H. destruct (digits2_pos_bounds p) as [Hlo _].
  destruct (Z_le_gt_dec (Zpos (digits2_pos p)) n) as [|Hgt]; [assumption|].
  exfalso. assert (2 ^ n <= 2 ^ (Zpos (digits2_pos p) - 1)).
  { destruct (Z_lt_le_dec n 0). rewrite Z.pow_neg_r in H by lia. lia.
    apply Z.pow_le_mono_r; lia. }
  lia.
Qed.

(** Invariant of the right shifts of [M]: after [j] shifts the mantissa is
    a truncation, and a set round bit certifies that at least half of
    the last place was dropped. *)
Definition shifted (M j : Z) (r : shr_record) : Prop :=
  0 <= j /\ 0 <= shr_m r /\ shr_m r * 2 ^ j <= M < (shr_m r + 1) * 2 ^ j
  /\ (shr_r r = true -> (2 * shr_m r + 1) * 2 ^ j <= 2 * M).

Lemma shr_1_shifted (M j : Z) (r : shr_record) :
  shifted M j r -> shifted M (j + 1) (shr_1 r).
Proof.
  intros (Hj & Hm & [Ht Hu] & _).
  assert (Hp : 2 ^ (j + 1) = 2 * 2 ^ j) by (rewrite Z.pow_add_r by lia; lia).
  assert (0 < 2 ^ j) by (apply Z.pow_pos_nonneg; lia).
  destruct r as [m rb sb]; cbn [shr_m shr_r] in *.
  unfold shifted. rewrite Hp.
  destruct m as [|[p|p|]|p]; cbn [shr_1 shr_m shr_r]; try lia;
    repeat split; try lia; try (intros; nia); try discriminate.
Qed.

Lemma iter_pos_shifted (M : Z) (n : positive) :
  forall j r, shifted M j r -> shifted M (j + Zpos n) (iter_pos shr_1 n r).
Proof.
  induction n as [n IH | n IH |]; intros j r H; cbn [iter_pos].
  - replace (j + Zpos n~1) with ((j + 1 + Zpos n) + Zpos n) by lia.
    apply IH, IH, shr_1_shifted, H.
  - replace (j + Zpos n~0) with ((j + Zpos n) + Zpos n) by lia.
    apply IH, IH, H.
  - apply shr_1_shifted, H.
Qed.

Lemma shr_shifted (M e n : Z) (r : shr_record) :
  shifted M 0 r ->
  let '(r', e') := shr r e n in
  e' = e + Z.max n 0 /\ shifted M (Z.max n 0) r'.
Proof.
  intros H. destruct n as [|n|n]; cbn [shr].
  - split; [lia | exact H].
  - split; [lia|]. rewrite Z.max_l by lia. apply (iter_pos_shifted M n 0 r H).
  - split; [lia | exact H].
Qed.

Lemma shifted_init (M : Z) : 0 <= M -> shifted M 0 (Build_shr_record M false false).
Proof. unfold shifted; cbn. intros; repeat split; try lia; discriminate. Qed.

Lemma round_nearest_even_shifted (M j : Z) (r : shr_record) :
  shifted M j r ->
  let m' := round_nearest_even (shr_m r) (loc_of_shr_record r) in
  shr_m r <= m' /\ 2 * m' * 2 ^ j <= 2 * M + 2 ^ j.
Proof.
  intros (Hj & Hm & [Ht Hu] & Hr).
  assert (0 < 2 ^ j) by (apply Z.pow_pos_nonneg; lia).
  destruct r as [m [|] [|]]; cbn [shr_m shr_r loc_of_shr_record round_nearest_even] in *;
    try destruct (Z.even m); specialize (Hr eq_refl) || clear Hr; split; nia.
Qed.

Lemma Zdigits2_le (m : Z) (M : positive) :
  0 <= m <= Zpos M -> Zdigits2 m <= Zpos (digits2_pos M).
Proof.
  intros [H0 H1]. destruct m as [|p|p]; cbn [Zdigits2]; try lia.
  apply digits2_pos_le. destruct (digits2_pos_bounds M). lia.
Qed.

(** Rounding an exact positive value [M * 2^E] to binary64: the result
    is [m * 2^(E + J + k)], at most half a unit of [2^(E + J)] above,
    and it is not zero unless [M] is below one unit of [2^(E + J)]. *)
Lemma binary_round_aux_exact (sx : bool) (M : positive) (E : Z) :
  let J := Z.max (Z.max (Zpos (digits2_pos M) - 53) (-1074 - E)) 0 in
  exists m k,
    0 <= m /\ 0 <= k <= J /\ 2 * m * 2 ^ (J + k) <= 2 * Zpos M + 2 ^ J /\
    (2 ^ J <= Zpos M -> 0 < m) /\
    binary_round_aux prec emax sx (Zpos M) E loc_Exact =
      match m with
      | Z0 => S754_zero sx
      | Zpos p =>
          if E + J + k <=? emax - prec then S754_finite sx p (E + J + k)
          else S754_infinity sx
      | Zneg _ => S754_nan
      end.
Proof.
  intros J. unfold binary_round_aux, shr_fexp.
  cbn [shr_record_of_loc Zdigits2].
  pose proof (shr_shifted (Zpos M) E (fexp prec emax (Zpos (digits2_pos M) + E) - E)
                _ (shifted_init (Zpos M) ltac:(lia))) as H1.
  destruct (shr _ E _) as [r1 e1]. destruct H1 as [He1 H1].
  assert (HJ : Z.max (fexp prec emax (Zpos (digits2_pos M) + E) - E) 0 = J).
  { unfold J, fexp, SpecFloat.emin, prec, emax. lia. }
  rewrite HJ in *.
  pose proof (round_nearest_even_shifted _ _ _ H1) as [Hm1' Hb1].
  set (m1 := round_nearest_even (shr_m r1) (loc_of_shr_record r1)) in *.
  assert (Hm1 : 0 <= m1) by (destruct H1 as (_ & ? & _); lia).
  assert (HJ0 : 0 < 2 ^ J) by (apply Z.pow_pos_nonneg; lia).
  assert (Hm1M : m1 <= Zpos M) by nia.
  pose proof (Zdigits2_le m1 M ltac:(lia)) as Hd.
  pose proof (shr_shifted m1 e1 (fexp prec emax (Zdigits2 m1 + e1) - e1)
                _ (shifted_init m1 Hm1)) as H2.
  destruct (shr _ e1 _) as [r2 e2]. destruct H2 as [He2 H2].
  set (k := Z.max (fexp prec emax (Zdigits2 m1 + e1) - e1) 0) in *.
  destruct H2 as (Hk & Hm2 & [Ht2 Hu2] & _).
  assert (Hk0 : 0 < 2 ^ k) by (apply Z.pow_pos_nonneg; lia).
  exists (shr_m r2), k. split; [exact Hm2|]. split.
  { unfold k, fexp, SpecFloat.emin, prec, emax. unfold J in He1 |- *. lia. }
  split.
  { rewrite Z.pow_add_r by lia. nia. }
  split.
  { intros HM. destruct H1 as (_ & Hr1 & [_ Hu1] & _).
    assert (H1m : 1 <= m1) by nia.
    assert (Hkm : 2 ^ k <= m1).
    { destruct m1 as [|p1|p1]; try lia.
      destruct (digits2_pos_bounds p1) as [Hlo _].
      apply Z.le_trans with (2 := Hlo). apply Z.pow_le_mono_r; [lia|].
      unfold k, fexp, SpecFloat.emin, prec, emax. cbn [Zdigits2].
      unfold J in He1. lia. }
    nia. }
  subst e2 e1. reflexivity.
Qed.

Lemma bounded_inv (m : positive) (e : Z) :
  bounded prec emax m e = true ->
  -1074 <= e <= 971 /\ Zpos m < 2 ^ 53 /\ (-1074 < e -> 2 ^ 52 <= Zpos m).
Proof.
  unfold bounded, canonical_mantissa, fexp, SpecFloat.emin, prec, emax.
  intros H. apply andb_prop in H as [H1 H2].
  apply Z.eqb_eq in H1. apply Z.leb_le in H2.
  destruct (digits2_pos_bounds m) as [Hlo Hhi].
  split; [lia|]. split.
  - apply Z.lt_le_trans with (1 := Hhi). apply Z.pow_le_mono_r; lia.
  - intros He. replace (Zpos (digits2_pos m)) with 53 in Hlo by lia. exact Hlo.
Qed.

(** The product of a binary64 value below one by the integer [N]
    (given as [mc * 2^ec]) is a binary64 value below [N]. *)
Lemma SFmul_below (m : positive) (e : Z) (mc : positive) (ec N : Z) :
  bounded prec emax m e = true -> e <= -53 ->
  0 < N <= 2 ^ 52 -> -52 <= ec <= 0 -> Zpos mc = N * 2 ^ (- ec) ->
  Zpos mc < 2 ^ 53 ->
  match SFmul prec emax (S754_finite false m e) (S754_finite false mc ec) with
  | S754_zero false => True
  | S754_finite false m' e' =>
      bounded prec emax m' e' = true -> e' < 0 /\ Zpos m' / 2 ^ (- e') < N
  | _ => False
  end.
Proof.
  intros Hb He HN Hec Hmc Hmc53.
  apply bounded_inv in Hb as (Hemin & Hm53 & _).
  cbn [SFmul xorb].
  destruct (binary_round_aux_exact false (m * mc) (e + ec))
    as (m' & k & Hm' & Hk & Hle & _ & ->).
  set (J := Z.max (Z.max (Zpos (digits2_pos (m * mc)) - 53) (-1074 - (e + ec))) 0) in *.
  assert (HdM : Zpos (digits2_pos (m * mc)) <= 106).
  { apply digits2_pos_le. rewrite Pos2Z.inj_mul.
    change (2 ^ 106) with (2 ^ 53 * 2 ^ 53). nia. }
  assert (HJ : 0 <= J <= 53) by (unfold J; lia).
  assert (HPJ : 0 < 2 ^ J) by (apply Z.pow_pos_nonneg; lia).
  assert (HPk : 0 < 2 ^ k) by (apply Z.pow_pos_nonneg; lia).
  assert (HQ : 2 ^ 53 <= 2 ^ (- e)) by (apply Z.pow_le_mono_r; lia).
  assert (Hec' : 0 < 2 ^ (- ec)) by (apply Z.pow_pos_nonneg; lia).
  (* half a unit in the last place of the product is below [mc] *)
  assert (HJmc : 2 ^ J < 2 * Zpos mc).
  { destruct (Z.eq_dec J 0) as [->|HJ0]; [cbn; lia|].
    destruct (Z.eq_dec J (Zpos (digits2_pos (m * mc)) - 53)) as [HJd|HJd].
    - destruct (digits2_pos_bounds (m * mc)) as [Hlo _].
      replace (Zpos (digits2_pos (m * mc)) - 1) with (J + 52) in Hlo by lia.
      rewrite Z.pow_add_r, Pos2Z.inj_mul in Hlo by lia.
      change (2 ^ 53) with (2 * 2 ^ 52) in Hm53. nia.
    - assert (J <= - ec) by (unfold J in *; lia).
      assert (2 ^ J <= 2 ^ (- ec)) by (apply Z.pow_le_mono_r; lia). nia. }
  assert (Hmain : m' * 2 ^ (J + k) < N * 2 ^ (- ec - e)).
  { rewrite Pos2Z.inj_mul in Hle.
    replace (- ec - e) with (- ec + - e) by lia.
    rewrite (Z.pow_add_r 2 (- ec) (- e)) by lia.
    rewrite Z.mul_assoc, <- Hmc. nia. }
  destruct m' as [|p|p]; [exact I | | lia].
  destruct (Z.leb_spec (e + ec + J + k) (emax - prec)) as [_|Hinf];
    [|unfold emax, prec in Hinf; lia].
  intros Hb'. apply bounded_inv in Hb' as (_ & _ & Hnorm).
  assert (Hneg : e + ec + J + k < 0).
  { destruct (Z_lt_le_dec (e + ec + J + k) 0) as [|Hpos]; [assumption|exfalso].
    specialize (Hnorm ltac:(lia)).
    replace (J + k) with ((e + ec + J + k) + (- ec - e)) in Hmain by lia.
    rewrite Z.pow_add_r in Hmain by lia.
    assert (0 < 2 ^ (- ec - e)) by (apply Z.pow_pos_nonneg; lia).
    assert (1 <= 2 ^ (e + ec + J + k)) by (apply (Z.pow_le_mono_r 2 0); lia).
    assert (N <= Zpos p * 2 ^ (e + ec + J + k)).
    { apply Z.le_trans with (Zpos p * 1); [lia|].
      apply Z.mul_le_mono_nonneg_l; lia. }
    assert (N * 2 ^ (- ec - e) <= Zpos p * 2 ^ (e + ec + J + k) * 2 ^ (- ec - e))
      by (apply Z.mul_le_mono_nonneg_r; lia).
    lia. }
  split; [exact Hneg|].
  apply Z.div_lt_upper_bound; [apply Z.pow_pos_nonneg; lia|].
  replace (- ec - e) with (- (e + ec + J + k) + (J + k)) in Hmain by lia.
  rewrite (Z.pow_add_r 2 (- (e + ec + J + k)) (J + k)) in Hmain by lia.
  assert (0 < 2 ^ (J + k)) by (apply Z.pow_pos_nonneg; lia).
  apply Z.mul_lt_mono_pos_r with (2 ^ (J + k)); [assumption|].
  rewrite (Z.mul_comm (2 ^ _) N), <- Z.mul_assoc. exact Hmain.
Qed.


Local Close Scope Z_scope.

(** Replaces [Prim2SF c], for a closed [c], by its value. *)
Ltac eval_Prim2SF c :=
  let v := eval vm_compute in (Prim2SF c) in
  replace (Prim2SF c) with v by (vm_compute; reflexivity).

Lemma Prim2SF_zero_inv (x : float) (s : bool) :
  Prim2SF x = S754_zero s -> x = (if s then neg_zero else zero).
Proof.
  intros H. rewrite <- (SF2Prim_Prim2SF x), H. destruct s; reflexivity.
Qed.

(** A draw in [0, 1) is a zero or a positive finite value with exponent at most [-53]. *)
Lemma unit_draw_inv (u : float) :
  (0 <=? u) = true -> (u <? 1) = true ->
  (exists s, Prim2SF u = S754_zero s)
  \/ exists m e, Prim2SF u = S754_finite false m e
                 /\ bounded prec emax m e = true /\ (e <= -53)%Z.
Proof.
  rewrite FloatAxioms.leb_spec, FloatAxioms.ltb_spec.
  eval_Prim2SF 0. eval_Prim2SF 1.
  pose proof (Prim2SF_valid u) as Hv.
  destruct (Prim2SF u) as [s | [|] | | [|] m e];
    cbn [SFleb SFltb SFcompare]; try discriminate.
  - intros _ _. left. exists s. reflexivity.
  - intros _ Hlt. right. exists m, e. cbn [valid_binary] in Hv.
    split; [reflexivity|]. split; [exact Hv|].
    destruct (bounded_inv m e Hv) as (_ & _ & Hnorm).
    destruct (Z.compare_spec e (-52)) as [-> | Hlt' | Hgt]; try discriminate; [|lia].
    specialize (Hnorm ltac:(lia)).
    pose proof (Pos.compare_spec m 4503599627370496) as Hcs.
    unfold Pos.compare in Hcs.
    destruct Hcs as [|Hm|]; try discriminate.
    exfalso. apply Pos2Z.pos_lt_pos in Hm. revert Hm Hnorm. clear.
    replace (2 ^ 52)%Z with (Zpos 4503599627370496) by (vm_compute; reflexivity).
    apply Z.lt_nge.
Qed.

Lemma Math_floor_scaled_draw (u c : float) (N : nat) (mc : positive) (ec : Z) :
  Prim2SF c = S754_finite false mc ec ->
  (0 < Z.of_nat N <= 2 ^ 52)%Z -> (-52 <= ec <= 0)%Z ->
  Zpos mc = (Z.of_nat N * 2 ^ (- ec))%Z -> (Zpos mc < 2 ^ 53)%Z ->
  (0 <=? u) = true -> (u <? 1) = true ->
  In (Math_floor (u * c)) (floorsBelow N).
Proof.
  intros Hc HN Hec Hmc Hmc53 H0 H1.
  pose proof (Prim2SF_valid (u * c)) as Hv.
  unfold Math_floor, floorsBelow. rewrite FloatAxioms.mul_spec, Hc in *.
  destruct (unit_draw_inv u H0 H1) as [[s Hu] | (m & e & Hu & Hb & He)]; rewrite Hu in *.
  - cbn [SF64mul SFmul] in *.
    pose proof (Prim2SF_zero_inv (u * c) s) as Hz.
    rewrite FloatAxioms.mul_spec, Hc, Hu in Hz. cbn [SF64mul SFmul] in Hz.
    rewrite xorb_false_r in Hz.
    rewrite (Hz eq_refl). destruct s; [left; reflexivity | right].
    apply in_map_iff. exists O. split; [reflexivity | apply in_seq; lia].
  - pose proof (SFmul_below m e mc ec (Z.of_nat N) Hb He HN Hec Hmc Hmc53) as Hm.
    pose proof (Prim2SF_zero_inv (u * c)) as Hz.
    rewrite FloatAxioms.mul_spec, Hc, Hu in Hz.
    unfold SF64mul in *.
    destruct (SFmul prec emax (S754_finite false m e) (S754_finite false mc ec))
      as [[|] | | | [|] m' e']; try contradiction.
    + rewrite (Hz false eq_refl). right.
      apply in_map_iff. exists O. split; [reflexivity | apply in_seq; lia].
    + destruct (Hm Hv) as [He' Hlt].
      destruct (Z.leb_spec 0 e') as [|_]; [lia|]. right.
      apply in_map_iff. exists (Z.to_nat (Zpos m' / 2 ^ (- e'))).
      assert (0 <= Zpos m' / 2 ^ (- e'))%Z
        by (apply Z.div_pos; [lia | apply Z.pow_pos_nonneg; lia]).
      split; [unfold num; rewrite Z2Nat.id by assumption; reflexivity|].
      apply in_seq. lia.
Qed.


Lemma Math_floor_draw_28 (u : float) :
  (0 <=? u) = true -> (u <? 1) = true ->
  In (Math_floor (u * (45 - 18 + 1))) (floorsBelow 28).
Proof.
  apply (Math_floor_scaled_draw u (45 - 18 + 1) 28 7881299347898368 (-48));
    [vm_compute; reflexivity | vm_compute; intuition discriminate | lia
    | vm_compute; reflexivity | vm_compute; reflexivity].
Qed.

Lemma Math_floor_draw_20 (u : float) :
  (0 <=? u) = true -> (u <? 1) = true -> In (Math_floor (u * 20)) (floorsBelow 20).
Proof.
  apply (Math_floor_scaled_draw u 20 20 5629499534213120 (-48));
    [vm_compute; reflexivity | vm_compute; intuition discriminate | lia
    | vm_compute; reflexivity | vm_compute; reflexivity].
Qed.

Lemma Math_floor_draw_2 (u : float) :
  (0 <=? u) = true -> (u <? 1) = true -> In (Math_floor (u * 2)) (floorsBelow 2).
Proof.
  apply (Math_floor_scaled_draw u 2 2 4503599627370496 (-51));
    [vm_compute; reflexivity | vm_compute; intuition discriminate | lia
    | vm_compute; reflexivity | vm_compute; reflexivity].
Qed.

(** Multiplication commutes (there is a single [NaN]). *)
Lemma SFmul_comm (x y : spec_float) : SFmul prec emax x y = SFmul prec emax y x.
Proof.
  destruct x as [sx | sx | | sx mx ex], y as [sy | sy | | sy my ey];
    cbn [SFmul]; rewrite ?(xorb_comm sx sy); try reflexivity.
  now rewrite (Pos.mul_comm mx my), (Z.add_comm ex ey).
Qed.

Lemma mul_comm (x y : float) : x * y = y * x.
Proof.
  apply Prim2SF_inj. rewrite !FloatAxioms.mul_spec. apply SFmul_comm.
Qed.

Lemma finite_inv (v : float) :
  finite v = true ->
  (exists s, Prim2SF v = S754_zero s) \/ (exists s m e, Prim2SF v = S754_finite s m e).
Proof.
  unfold finite, is_nan, is_infinity.
  rewrite !FloatAxioms.eqb_spec, FloatAxioms.abs_spec.
  eval_Prim2SF infinity.
  destruct (Prim2SF v) as [s | [|] | | s m e]; cbn [SFabs SFeqb SFcompare negb andb];
    try discriminate; intros _; [left | right]; eauto.
Qed.

(** A finite feature times a zero weight leaves a zero sum at zero. *)
Lemma add_mul_zero (v : float) : finite v = true -> 0 + v * 0 = 0.
Proof.
  intros Hv. apply Prim2SF_inj.
  rewrite FloatAxioms.add_spec, FloatAxioms.mul_spec.
  eval_Prim2SF 0.
  destruct (finite_inv v Hv) as [[s ->] | (s & m & e & ->)];
    destruct s; reflexivity.
Qed.

Lemma is_nan_inv (x : float) : is_nan x = false -> Prim2SF x <> S754_nan.
Proof.
  unfold is_nan. rewrite FloatAxioms.eqb_spec. intros H E. rewrite E in H. discriminate.
Qed.

Lemma eqb_zero_inv (x : float) :
  (x =? 0) = true -> exists s, Prim2SF x = S754_zero s.
Proof.
  rewrite FloatAxioms.eqb_spec.
  eval_Prim2SF 0.
  destruct (Prim2SF x) as [s | [|] | | [|] m e]; cbn [SFeqb SFcompare];
    try discriminate; eauto.
Qed.

Lemma eqb_zero_false_inv (x : float) :
  (x =? 0) = false -> forall s, Prim2SF x <> S754_zero s.
Proof.
  rewrite FloatAxioms.eqb_spec.
  eval_Prim2SF 0.
  intros H s E. rewrite E in H. discriminate.
Qed.

(** On numbers that are not [NaN], replacing a zero of either sign by
    [0] does not change the magnitude of a difference. *)
Lemma abs_sub_or_zero (a b : float) :
  is_nan a = false -> is_nan b = false ->
  abs (or_zero (Some a) - or_zero (Some b)) = abs (a - b).
Proof.
  intros Ha Hb. unfold or_zero, falsy. rewrite Ha, Hb, !orb_false_r.
  pose proof (is_nan_inv a Ha) as Na. pose proof (is_nan_inv b Hb) as Nb.
  apply Prim2SF_inj. rewrite !FloatAxioms.abs_spec.
  destruct (a =? 0) eqn:Za, (b =? 0) eqn:Zb; rewrite !FloatAxioms.sub_spec;
    eval_Prim2SF 0;
    try reflexivity.
  - destruct (eqb_zero_inv a Za) as [sa ->], (eqb_zero_inv b Zb) as [sb ->].
    destruct sa, sb; reflexivity.
  - destruct (eqb_zero_inv a Za) as [sa ->].
    pose proof (eqb_zero_false_inv b Zb) as Hz.
    destruct (Prim2SF b) as [s | s | | s m e]; try reflexivity.
    exfalso; eapply Hz; reflexivity.
  - destruct (eqb_zero_inv b Zb) as [sb ->].
    pose proof (eqb_zero_false_inv a Za) as Hz.
    destruct (Prim2SF a) as [s | s | | s m e]; try reflexivity.
    exfalso; eapply Hz; reflexivity.
Qed.


(** ** Values that cannot be [NaN] *)

Lemma shr_1_nonneg (r : shr_record) : (0 <= shr_m r)%Z -> (0 <= shr_m (shr_1 r))%Z.
Proof.
  destruct r as [[|[p|p|]|p] rb sb]; cbn [shr_1 shr_m]; lia.
Qed.

Lemma iter_pos_shr_1_nonneg (n : positive) (r : shr_record) :
  (0 <= shr_m r)%Z -> (0 <= shr_m (iter_pos shr_1 n r))%Z.
Proof.
  revert r. induction n as [n IH | n IH |]; intros r H; cbn [iter_pos].
  - apply IH, IH, shr_1_nonneg, H.
  - apply IH, IH, H.
  - apply shr_1_nonneg, H.
Qed.

Lemma shr_nonneg (r : shr_record) (e n : Z) :
  (0 <= shr_m r)%Z -> (0 <= shr_m (fst (shr r e n)))%Z.
Proof.
  intros H. destruct n as [|n|n]; cbn [shr fst]; try exact H.
  apply iter_pos_shr_1_nonneg, H.
Qed.

(** Rounding a non-negative mantissa gives a zero, a finite value or an
    infinity. *)
Lemma binary_round_aux_not_nan (sx : bool) (mx ex : Z) (lx : SpecFloat.location) :
  (0 <= mx)%Z -> binary_round_aux prec emax sx mx ex lx <> S754_nan.
Proof.
  intros Hm. unfold binary_round_aux, shr_fexp.
  pose proof (shr_nonneg (shr_record_of_loc mx lx) ex
                (fexp prec emax (Zdigits2 mx + ex) - ex)) as H1.
  destruct (shr (shr_record_of_loc mx lx) ex _) as [r1 e1]. cbn [fst] in H1.
  assert (Hr1 : (0 <= shr_m r1)%Z).
  { apply H1. destruct lx as [|[| |]]; exact Hm. }
  set (m1 := round_nearest_even (shr_m r1) (loc_of_shr_record r1)).
  assert (Hm1 : (0 <= m1)%Z).
  { unfold m1. destruct r1 as [m [|] [|]];
      cbn [shr_m loc_of_shr_record round_nearest_even] in *;
      try destruct (Z.even m); lia. }
  pose proof (shr_nonneg (shr_record_of_loc m1 loc_Exact) e1
                (fexp prec emax (Zdigits2 m1 + e1) - e1) Hm1) as H2.
  destruct (shr (shr_record_of_loc m1 loc_Exact) e1 _) as [r2 e2]. cbn [fst] in H2.
  destruct (shr_m r2) as [|p|p]; [discriminate | | lia].
  destruct (e2 <=? emax - prec)%Z; discriminate.
Qed.

Lemma SFmul_finite_not_nan (x : spec_float) (s : bool) (m : positive) (e : Z) :
  x <> S754_nan -> SFmul prec emax x (S754_finite s m e) <> S754_nan.
Proof.
  intros Hx. destruct x as [sx | sx | | sx mx ex]; cbn [SFmul];
    try discriminate; [contradiction|].
  apply binary_round_aux_not_nan. lia.
Qed.

Lemma SFdiv_finite_not_nan (x : spec_float) (s : bool) (m : positive) (e : Z) :
  (exists sx, x = S754_zero sx) \/ (exists sx mx ex, x = S754_finite sx mx ex) ->
  SFdiv prec emax x (S754_finite s m e) <> S754_nan.
Proof.
  intros [[sx ->] | (sx & mx & ex & ->)]; cbn [SFdiv]; [discriminate|].
  unfold SFdiv_core_binary.
  set (m' := match _ with Zpos _ => _ | Z0 => _ | Zneg _ => _ end).
  assert (Hm' : (0 <= m')%Z).
  { unfold m'. destruct (_ - _ - _)%Z; try lia. apply Z.shiftl_nonneg. lia. }
  pose proof (Z.div_pos m' (Zpos m) Hm' ltac:(lia)) as Hq.
  unfold Z.div in Hq. destruct (Z.div_eucl m' (Zpos m)) as [q r]. cbn [fst] in Hq.
  apply binary_round_aux_not_nan. exact Hq.
Qed.

Lemma iter_xO_pow (p q : positive) :
  Zpos (Pos.iter xO p q) = (Zpos p * 2 ^ Zpos q)%Z.
Proof.
  induction q as [|q IH] using Pos.peano_ind.
  - cbn [Pos.iter]. rewrite (Pos2Z.inj_xO p). change (2 ^ 1)%Z with 2%Z. lia.
  - rewrite Pos.iter_succ, (Pos2Z.inj_xO (Pos.iter xO p q)), IH.
    rewrite Pos2Z.inj_succ, Z.pow_succ_r by lia. lia.
Qed.

(** A count between 1 and 2^63 converts to a positive finite number. *)
Lemma num_positive_finite (n : nat) :
  (0 < Z.of_nat n < 2 ^ 63)%Z ->
  exists m e, Prim2SF (num n) = S754_finite false m e.
Proof.
  intros Hn. unfold num. rewrite of_uint63_spec, Uint63.of_Z_spec.
  rewrite Z.mod_small by (change wB with (2 ^ 63)%Z; lia).
  destruct (Z.of_nat n) as [|p|p]; try lia.
  cbn [binary_normalize]. unfold binary_round.
  destruct (digits2_pos_bounds p) as [Hlo Hhi].
  assert (Hd : (1 <= Zpos (digits2_pos p) <= 63)%Z).
  { split; [lia|]. apply digits2_pos_le. lia. }
  assert (exists mz ez,
             shl_align p 0 (fexp prec emax (Zpos (digits2_pos p) + 0)) = (mz, ez)
             /\ (2 ^ 52 <= Zpos mz < 2 ^ 63)%Z /\ (-52 <= ez <= 0)%Z)
    as (mz & ez & -> & HM & HE).
  { unfold shl_align, fexp, SpecFloat.emin, prec, emax.
    rewrite Z.add_0_r, Z.sub_0_r.
    destruct (Z.max (Zpos (digits2_pos p) - 53) (3 - 1024 - 53)) as [|q|q] eqn:Hq.
    - exists p, 0%Z. split; [reflexivity|].
      replace (Zpos (digits2_pos p)) with 53%Z in Hlo by lia.
      change (53 - 1)%Z with 52%Z in Hlo. lia.
    - exists p, 0%Z. split; [reflexivity|]. split; [|lia]. split; [|lia].
      apply Z.le_trans with (2 := Hlo). apply Z.pow_le_mono_r; lia.
    - exists (Pos.iter xO p q), (Zneg q). split; [reflexivity|].
      rewrite iter_xO_pow. split; [|lia].
      assert (Hpq : Zpos q = (53 - Zpos (digits2_pos p))%Z) by lia.
      rewrite Hpq. split.
      + replace 52%Z with ((Zpos (digits2_pos p) - 1) + (53 - Zpos (digits2_pos p)))%Z by lia.
        rewrite Z.pow_add_r by lia. apply Z.mul_le_mono_nonneg_r; [|exact Hlo].
        apply Z.pow_nonneg. lia.
      + apply Z.lt_le_trans with (2 ^ 53)%Z; [|apply Z.pow_le_mono_r; lia].
        replace 53%Z with (Zpos (digits2_pos p) + (53 - Zpos (digits2_pos p)))%Z at 2 by lia.
        rewrite Z.pow_add_r by lia. apply Z.mul_lt_mono_pos_r; [|exact Hhi].
        apply Z.pow_pos_nonneg; lia. }
  destruct (binary_round_aux_exact false mz ez) as (m & k & Hm & Hk & _ & Hpos & ->).
  set (J := Z.max (Z.max (Zpos (digits2_pos mz) - 53) (-1074 - ez)) 0) in *.
  assert (HdM : (Zpos (digits2_pos mz) <= 63)%Z) by (apply digits2_pos_le; lia).
  assert (HJ : (0 <= J <= 10)%Z) by (unfold J; lia).
  assert (H2J : (2 ^ J <= Zpos mz)%Z).
  { apply Z.le_trans with (2 ^ 52)%Z; [apply Z.pow_le_mono_r; lia | lia]. }
  specialize (Hpos H2J). destruct m as [|pm|pm]; try lia.
  destruct (Z.leb_spec (ez + J + k) (emax - prec)) as [_|Hinf];
    [eauto | unfold emax, prec in Hinf; lia].
Qed.

Lemma num_zero_or_finite (n : nat) :
  (Z.of_nat n < 2 ^ 63)%Z ->
  (exists s, Prim2SF (num n) = S754_zero s)
  \/ (exists s m e, Prim2SF (num n) = S754_finite s m e).
Proof.
  intros Hn. destruct n as [|n].
  - left. exists false. vm_compute. reflexivity.
  - right. destruct (num_positive_finite (S n)) as (m & e & H); [lia | eauto].
Qed.

Lemma SFeqb_refl (x : spec_float) : x <> S754_nan -> SFeqb x x = true.
Proof.
  intros Hx. unfold SFeqb.
  destruct x as [s | [|] | | [|] m e]; cbn [SFcompare]; try reflexivity;
    try contradiction;
    rewrite Z.compare_refl, Pos.compare_cont_refl; reflexivity.
Qed.

Lemma is_nan_false (x : float) : Prim2SF x <> S754_nan -> is_nan x = false.
Proof.
  intros Hx. unfold is_nan. rewrite FloatAxioms.eqb_spec, SFeqb_refl by exact Hx.
  reflexivity.
Qed.

(** The percentage of a non-empty subgroup is a number. *)
Lemma percentage_not_nan (correct total : nat) :
  (Z.of_nat correct < 2 ^ 63)%Z -> (0 < Z.of_nat total < 2 ^ 63)%Z ->
  is_nan (num correct / num total * 100) = false.
Proof.
  intros Hc Ht. apply is_nan_false.
  rewrite FloatAxioms.mul_spec, FloatAxioms.div_spec.
  destruct (num_positive_finite total Ht) as (m & e & ->).
  eval_Prim2SF 100.
  apply SFmul_finite_not_nan, SFdiv_finite_not_nan, num_zero_or_finite, Hc.
Qed.

End Binary64.

(** * Loops and arrays *)

Module Loops.

Lemma for_range_S {S : Type} (n : nat) (body : nat -> S -> S) (s : S) :
  for_range (Datatypes.S n) body s = body n (for_range n body s).
Proof.
  unfold for_range. rewrite seq_S, fold_left_app. reflexivity.
Qed.

Lemma for_range_ext {S : Type} (n : nat) (f g : nat -> S -> S) (s : S) :
  (forall i st, i < n -> f i st = g i st) -> for_range n f s = for_range n g s.
Proof.
  induction n as [|n IH]; intros H; [reflexivity|].
  rewrite !for_range_S, IH, H; auto.
Qed.

Lemma for_range_iter {S : Type} (n : nat) (f : S -> S) (s : S) :
  for_range n (fun _ st => f st) s = Nat.iter n f s.
Proof.
  induction n as [|n IH]; [reflexivity|].
  rewrite for_range_S, IH. reflexivity.
Qed.

(** A loop that reads [a[j]] for every index of [a] folds over [a]. *)
Lemma for_range_nth {A S : Type} (d : A) (f : A -> S -> S) (a : list A) (s : S) :
  for_range (length a) (fun j st => f (nth j a d) st) s
  = fold_left (fun st x => f x st) a s.
Proof.
  induction a as [|x a IH] using rev_ind; [reflexivity|].
  rewrite length_app, Nat.add_1_r, for_range_S, fold_left_app.
  rewrite app_nth2, Nat.sub_diag by lia. cbn [nth fold_left].
  f_equal. rewrite <- IH. apply for_range_ext.
  intros i st Hi. rewrite app_nth1 by lia. reflexivity.
Qed.

Lemma set_app_r (a b : list float) (i : nat) (v : float) :
  JS.set (a ++ b) (length a + i) v = a ++ JS.set b i v.
Proof.
  induction a as [|h a IH]; [reflexivity|]. cbn. now rewrite IH.
Qed.

Lemma skipn_cons_get (a : list float) (i : nat) :
  i < length a -> skipn i a = get a i :: skipn (Datatypes.S i) a.
Proof.
  revert i. induction a as [|h a IH]; intros i Hi; [cbn in Hi; lia|].
  destruct i as [|i]; [reflexivity|]. cbn in Hi. cbn [skipn].
  rewrite IH by lia. reflexivity.
Qed.

Lemma get_map_seq (f : nat -> float) (n k : nat) :
  k < n -> get (map f (seq 0 n)) k = f k.
Proof.
  intros Hk. unfold get.
  rewrite nth_indep with (d' := f O) by (rewrite length_map, length_seq; exact Hk).
  rewrite map_nth, seq_nth by exact Hk. reflexivity.
Qed.

Lemma map_get_seq (a : list float) : map (get a) (seq 0 (length a)) = a.
Proof.
  induction a as [|h a IH]; [reflexivity|].
  cbn [length seq map]. f_equal.
  rewrite <- seq_shift, map_map. exact IH.
Qed.

Lemma get_zeros (n k : nat) : k < n -> get (zeros n) k = 0%float.
Proof.
  intros Hk. unfold get, zeros. apply nth_repeat_lt. exact Hk.
Qed.

(** The loop [for k < n: a[k] = g(k, a[k])] rewrites the first [n]
    elements of [a], each from its own old value. *)
Lemma for_range_set (g : nat -> float -> float) (a : list float) (n : nat) :
  n <= length a ->
  for_range n (fun k a' => JS.set a' k (g k (get a' k))) a
  = map (fun k => g k (get a k)) (seq 0 n) ++ skipn n a.
Proof.
  induction n as [|n IH]; intros Hn; [reflexivity|].
  rewrite for_range_S, IH by lia. clear IH.
  rewrite seq_S, map_app. cbn [map Nat.add].
  set (pre := map (fun k => g k (get a k)) (seq 0 n)).
  assert (Hpre : length pre = n) by (unfold pre; now rewrite length_map, length_seq).
  rewrite (skipn_cons_get a n) by lia.
  replace (get (pre ++ get a n :: skipn (Datatypes.S n) a) n) with (get a n).
  2:{ unfold get at 2. rewrite app_nth2 by lia.
      rewrite Hpre, Nat.sub_diag. reflexivity. }
  pose proof (set_app_r pre (get a n :: skipn (Datatypes.S n) a) 0 (g n (get a n))) as Hs.
  rewrite Hpre, Nat.add_0_r in Hs. rewrite Hs.
  cbn [JS.set]. rewrite <- app_assoc. reflexivity.
Qed.

Lemma for_range_set_all (g : nat -> float -> float) (a : list float) :
  for_range (length a) (fun k a' => JS.set a' k (g k (get a' k))) a
  = map (fun k => g k (get a k)) (seq 0 (length a)).
Proof.
  rewrite for_range_set by lia. rewrite skipn_all, app_nil_r. reflexivity.
Qed.

End Loops.

(** * The training loop and the descent of the specification *)

Section Training.

Import Loops.

Variable Math_exp : float -> float.

Lemma fold_add_reduce (w x : list float) (i : nat) (acc : float) :
  i + length x <= length w ->
  reduce_from (fun acc val idx => acc + val * get w idx) i x acc
  = fold_left PrimFloat.add (map (fun wx => fst wx * snd wx) (combine (skipn i w) x)) acc.
Proof.
  revert i acc. induction x as [|v x IH]; intros i acc Hi.
  - destruct (skipn i w); reflexivity.
  - cbn [length] in Hi. cbn [reduce_from].
    rewrite IH by lia. rewrite (skipn_cons_get w i) by lia.
    cbn [combine map fold_left fst snd].
    rewrite (Binary64.mul_comm (get w i) v). reflexivity.
Qed.

(** The linear model of the code is the dot product of the
    specification plus the bias, on a vector no longer than the weights. *)
Lemma linearModel_dot (m : LogisticRegression) (x : list float) :
  length x <= length (weights m) ->
  linearModel m x = dot (weights m) x + bias m.
Proof.
  intros Hx. unfold linearModel, reduce, dot, fsum.
  rewrite fold_add_reduce by lia. reflexivity.
Qed.

Lemma accumulate_step (nf : nat) (diff : float) (xj dw : list float) :
  length dw = nf ->
  for_range nf (fun k dw => JS.set dw k (get dw k + diff * get xj k)) dw
  = map (fun k => get dw k + diff * get xj k) (seq 0 nf).
Proof.
  intros <-. exact (for_range_set_all (fun k v => v + diff * get xj k) dw).
Qed.

Lemma update_step (nf : nat) (rate count : float) (dw w : list float) :
  length w = nf ->
  for_range nf (fun k w => JS.set w k (get w k - rate * get dw k / count)) w
  = map (fun k => get w k - rate * get dw k / count) (seq 0 nf).
Proof.
  intros <-. exact (for_range_set_all (fun k v => v - rate * get dw k / count) w).
Qed.

(** The pass over the samples, from any accumulator of the right width. *)
Lemma accumulate_fold (m : LogisticRegression) (nf : nat)
  (batch : list (list float * float)) :
  length (weights m) = nf ->
  Forall (fun sample => length (fst sample) = nf) batch ->
  forall (dw : list float) (db : float),
    length dw = nf ->
    fold_left
      (fun st sample =>
         let '(dw, db) := st in
         let diff := sigmoid Math_exp (linearModel m (fst sample)) - snd sample in
         (for_range nf (fun k dw => JS.set dw k (get dw k + diff * get (fst sample) k)) dw,
          db + diff))
      batch (dw, db)
    = (map (fun k =>
              fold_left PrimFloat.add
                (map (fun sample =>
                        sampleError Math_exp (weights m) (bias m) sample
                        * get (fst sample) k) batch)
                (get dw k))
         (seq 0 nf),
       fold_left PrimFloat.add
         (map (sampleError Math_exp (weights m) (bias m)) batch) db).
Proof.
  intros Hw Hrows. induction Hrows as [|sample batch Hlen Hrows IH]; intros dw db Hdw.
  - cbn [fold_left map]. rewrite <- Hdw. f_equal. symmetry. exact (map_get_seq dw).
  - cbn [fold_left map]. cbv zeta.
    rewrite accumulate_step by exact Hdw.
    rewrite IH by (now rewrite length_map, length_seq).
    assert (Hs : sigmoid Math_exp (linearModel m (fst sample)) - snd sample
                 = sampleError Math_exp (weights m) (bias m) sample).
    { unfold sampleError. rewrite linearModel_dot by lia. reflexivity. }
    rewrite Hs. cbn [map fold_left]. f_equal.
    apply map_ext_in. intros k Hk. apply in_seq in Hk.
    rewrite get_map_seq by lia. reflexivity.
Qed.

(** What [accumulate] returns: the gradients of the specification. *)
Lemma accumulate_gradient (m : LogisticRegression) (X : list (list float))
  (y : list float) (nf : nat) :
  length X = length y ->
  length (weights m) = nf ->
  Forall (fun row => length row = nf) X ->
  accumulate Math_exp m X y (length X) nf
  = (map (gradient Math_exp (weights m) (bias m) (combine X y)) (seq 0 nf),
     biasGradient Math_exp (weights m) (bias m) (combine X y)).
Proof.
  intros Hxy Hw Hrows. unfold accumulate.
  assert (Hlen : length X = length (combine X y))
    by (rewrite length_combine; lia).
  rewrite Hlen.
  set (step := fun (sample : list float * float) (st : list float * float) =>
                 let '(dw, db) := st in
                 let diff :=
                   sigmoid Math_exp (linearModel m (fst sample)) - snd sample in
                 (for_range nf
                    (fun k dw => JS.set dw k (get dw k + diff * get (fst sample) k)) dw,
                  db + diff)).
  rewrite (for_range_ext _ _ (fun j st => step (nth j (combine X y) ([], nan)) st)).
  2:{ intros j [dw db] Hj. rewrite combine_nth by exact Hxy. reflexivity. }
  rewrite (for_range_nth ([], nan) step). unfold step.
  rewrite accumulate_fold with (nf := nf).
  - unfold gradient, biasGradient, fsum. f_equal.
    apply map_ext_in. intros k Hk. apply in_seq in Hk.
    rewrite get_zeros by lia. reflexivity.
  - exact Hw.
  - apply Forall_forall. intros [xj yj] Hin. apply in_combine_l in Hin.
    rewrite Forall_forall in Hrows. exact (Hrows xj Hin).
  - apply repeat_length.
Qed.

(** One iteration of the loop of [fit] is one round of the descent. *)
Lemma fitIteration_descentRound (m : LogisticRegression) (X : list (list float))
  (y : list float) (nf : nat) :
  length X = length y ->
  length (weights m) = nf ->
  Forall (fun row => length row = nf) X ->
  let m' := fitIteration Math_exp X y (length X) nf m in
  (weights m', bias m') = descentRound Math_exp (learningRate m) (combine X y)
                            (weights m, bias m)
  /\ length (weights m') = nf
  /\ learningRate m' = learningRate m /\ iterations m' = iterations m.
Proof.
  intros Hxy Hw Hrows. unfold fitIteration.
  rewrite accumulate_gradient by assumption.
  cbn [weights bias learningRate iterations].
  assert (Hlen : length (combine X y) = length X)
    by (rewrite length_combine; lia).
  rewrite update_step by exact Hw.
  split; [|split; [now rewrite length_map, length_seq | split; reflexivity]].
  unfold descentRound. rewrite Hlen, Hw. f_equal.
  apply map_ext_in. intros k Hk. apply in_seq in Hk.
  rewrite get_map_seq by lia. reflexivity.
Qed.

(** [fit] on a well-formed batch runs the descent of the specification. *)
Lemma fit_descent (m : LogisticRegression) (X : list (list float)) (y : list float) :
  X <> [] -> length X = length y -> uniform_rows X ->
  fit Math_exp m X y
  = (let wb := descent Math_exp (learningRate m) (iterations m)
                 (length (hd [] X)) (combine X y) in
     {| weights := fst wb;
        bias := snd wb;
        learningRate := learningRate m;
        iterations := iterations m |},
     Returns tt).
Proof.
  intros Hne Hxy Hrows. unfold fit.
  destruct X as [|X0 X']; [contradiction|]. cbn [hd] in *.
  set (X := X0 :: X') in *. set (nf := length X0) in *.
  f_equal. rewrite for_range_iter. unfold descent.
  set (m0 := {| weights := zeros nf; bias := 0;
                learningRate := learningRate m; iterations := iterations m |}).
  assert (Hinv : forall n,
             let mn := Nat.iter n (fitIteration Math_exp X y (length X) nf) m0 in
             (weights mn, bias mn)
             = Nat.iter n (descentRound Math_exp (learningRate m) (combine X y))
                 (zeros nf, 0)
             /\ length (weights mn) = nf
             /\ learningRate mn = learningRate m /\ iterations mn = iterations m).
  { induction n as [|n IH].
    - cbn. repeat split. apply repeat_length.
    - rewrite !Nat.iter_succ. cbv zeta in IH |- *.
      set (mn := Nat.iter n (fitIteration Math_exp X y (length X) nf) m0) in *.
      destruct IH as (IH1 & IH2 & IH3 & IH4).
      destruct (fitIteration_descentRound mn X y nf Hxy IH2 Hrows)
        as (H1 & H2 & H3 & H4).
      rewrite H1, H2, H3, H4, IH3, IH1. repeat split; assumption. }
  destruct (Hinv (iterations m)) as (H1 & _ & H3 & H4).
  cbv zeta. rewrite <- H1. cbn [fst snd].
  destruct (Nat.iter (iterations m) (fitIteration Math_exp X y (length X) nf) m0)
    as [w b r its]. cbn [weights bias learningRate iterations] in *.
  now subst.
Qed.

End Training.

(** * Prediction with zero weights, and with no weights *)

Section Prediction.

Import Loops.

Variable Math_exp : float -> float.

(** [Math.exp(-0)] is [1] (ECMAScript, Math.exp: "if x is -0, return 1"). *)
Hypothesis exp_neg_zero : Math_exp neg_zero = 1.

Lemma sigmoid_zero : sigmoid Math_exp 0 = 0.5.
Proof.
  unfold sigmoid. change (- 0) with neg_zero. rewrite exp_neg_zero. reflexivity.
Qed.

Lemma reduce_zero_weights (n : nat) (x : list float) (i : nat) :
  i + length x <= n -> Forall (fun v => finite v = true) x ->
  reduce_from (fun acc val idx => acc + val * get (zeros n) idx) i x 0 = 0.
Proof.
  intros Hi Hx. revert i Hi. induction Hx as [|v x Hv Hx IH]; intros i Hi.
  - reflexivity.
  - cbn [length] in Hi. cbn [reduce_from].
    rewrite get_zeros by lia. rewrite (Binary64.add_mul_zero v Hv).
    apply IH. lia.
Qed.

Lemma predictProba_zero_weights (m : LogisticRegression) (x : list float) :
  weights m = zeros (length (weights m)) -> bias m = 0 ->
  length x <= length (weights m) -> Forall (fun v => finite v = true) x ->
  predictProba Math_exp m x = 0.5.
Proof.
  intros Hw Hb Hlen Hx. unfold predictProba, linearModel, reduce.
  rewrite Hw, Hb, reduce_zero_weights by (assumption || lia).
  change (0 + 0) with 0. exact sigmoid_zero.
Qed.

End Prediction.

Section Untrained.

Variable Math_exp : float -> float.

(** [Math.exp(NaN)] is [NaN] (ECMAScript, Math.exp: "if x is NaN, return NaN"). *)
Hypothesis exp_nan : Math_exp nan = nan.

Lemma add_nan_l (x : float) : nan + x = nan.
Proof.
  apply Prim2SF_inj. rewrite FloatAxioms.add_spec.
  Binary64.eval_Prim2SF nan. reflexivity.
Qed.

Lemma add_nan_r (x : float) : x + nan = nan.
Proof.
  apply Prim2SF_inj. rewrite FloatAxioms.add_spec.
  Binary64.eval_Prim2SF nan.
  destruct (Prim2SF x); reflexivity.
Qed.

Lemma mul_nan_r (x : float) : x * nan = nan.
Proof.
  apply Prim2SF_inj. rewrite FloatAxioms.mul_spec.
  Binary64.eval_Prim2SF nan.
  destruct (Prim2SF x); reflexivity.
Qed.

Lemma sigmoid_nan : sigmoid Math_exp nan = nan.
Proof.
  unfold sigmoid. change (- nan) with nan. rewrite exp_nan. reflexivity.
Qed.

(** Once the sum is [NaN] it stays [NaN]. *)
Lemma reduce_from_nan (w x : list float) (i : nat) :
  reduce_from (fun acc val idx => acc + val * get w idx) i x nan = nan.
Proof.
  revert i. induction x as [|v x IH]; intros i; [reflexivity|].
  cbn [reduce_from]. rewrite add_nan_l. apply IH.
Qed.

(** With an empty weight array every read [weights[idx]] is [undefined]. *)
Lemma linearModel_no_weights (m : LogisticRegression) (x : list float) :
  weights m = [] -> x <> [] -> linearModel m x = nan.
Proof.
  intros Hw Hx. destruct x as [|v x]; [contradiction|].
  unfold linearModel, reduce. rewrite Hw. cbn [reduce_from].
  replace (get [] 0) with nan by reflexivity.
  rewrite mul_nan_r, add_nan_r, reduce_from_nan. apply add_nan_l.
Qed.

End Untrained.

(** * The generator *)

Module Generator.

Import Loops.

(** Each record consumes seven draws. *)
Lemma genPatient_draws (rnd : Rand) (i n : nat) : snd (genPatient rnd i n) = (7 + n)%nat.
Proof. reflexivity. Qed.

(** The loop produces the records of the counters [0 .. count-1], the
    record of counter [i] from the draws [7i .. 7i+6]. *)
Lemma generateLoop_map (rnd : Rand) (count : nat) :
  generateLoop rnd count
  = (map (fun i => fst (genPatient rnd i (7 * i)%nat)) (seq 0 count), (7 * count)%nat).
Proof.
  unfold generateLoop. induction count as [|count IH]; [reflexivity|].
  rewrite for_range_S, IH, seq_S, map_app. cbn [map Nat.add].
  pose proof (genPatient_draws rnd count ((7 * count)%nat)) as Hd.
  destruct (genPatient rnd count (7 * count)%nat) as [p n']. cbn [fst snd] in *.
  subst n'. f_equal. lia.
Qed.

Lemma generateMaternityData_map (rnd : Rand) (count : nat) :
  generateMaternityData rnd count
  = map (fun i => fst (genPatient rnd i (7 * i)%nat)) (seq 0 count).
Proof.
  unfold generateMaternityData. now rewrite generateLoop_map.
Qed.

(** The fields of the record of counter [i] made from the draws [n .. n+6]. *)
Lemma genPatient_fields (rnd : Rand) (i n : nat) :
  unit_draws rnd ->
  let p := fst (genPatient rnd i n) in
  In (age p) ageValues /\ In (laborDuration p) laborDurationValues
  /\ In (los p) losValues.
Proof.
  intros Hr.
  destruct (Hr n) as [Ha0 Ha1].
  destruct (Hr (3 + n)%nat) as [Hl0 Hl1].
  destruct (Hr (5 + n)%nat) as [Hs0 Hs1].
  cbv zeta. unfold genPatient, bind, Math_random, ret.
  cbn [fst age laborDuration los].
  split; [|split].
  - apply (in_map (fun f => f + 18)), Binary64.Math_floor_draw_28; assumption.
  - apply (in_map (fun f => f + 4)), Binary64.Math_floor_draw_20; assumption.
  - unfold losValues. apply in_flat_map.
    pose proof (Binary64.Math_floor_draw_2 _ Hs0 Hs1) as Hf.
    destruct (0.7 <? rnd (S n)), (0.8 <? rnd (S (S (S (S n)))));
      cbn [DeliveryType_eqb];
      [exists (4 + 2) | exists 4 | exists (2 + 2) | exists 2];
      (split; [cbn [In]; tauto | ]).
    all: match goal with
         | |- In (?b + _) _ => apply (in_map (fun f => b + f)); exact Hf
         end.
Qed.

Lemma genPatient_id (rnd : Rand) (i n : nat) :
  id (fst (genPatient rnd i n)) = (Z.of_nat i + 1)%Z.
Proof. reflexivity. Qed.

(** The Bernoulli draw of a record is its last draw, against the
    probability computed from the record's own fields. *)
Lemma genPatient_readmitted (rnd : Rand) (i n : nat) :
  let p := fst (genPatient rnd i n) in
  readmitted p
  = (rnd (6 + n)%nat
     <? readmissionProb (age p) (deliveryType p) (complications p) (los p) (location p)).
Proof. reflexivity. Qed.

(** The conditional increments add up to the additive rule. *)
Lemma readmissionProb_additive (p : Patient) :
  readmissionProb (age p) (deliveryType p) (complications p) (los p) (location p)
  = additiveProb p.
Proof.
  unfold readmissionProb, additiveProb.
  destruct (deliveryType p), (complications p), (location p),
    (35 <? age p), (los p <? 3); reflexivity.
Qed.

Lemma in_combine_seq_map {A : Type} (f : nat -> A) (n s i : nat) (a : A) :
  In (i, a) (combine (seq s n) (map f (seq s n))) -> a = f i.
Proof.
  revert s. induction n as [|n IH]; intros s Hin; [contradiction|].
  cbn [seq map combine In] in Hin. destruct Hin as [Hin | Hin].
  - now injection Hin as <- <-.
  - exact (IH _ Hin).
Qed.

End Generator.

(** * Auxiliary facts for the statements *)

Lemma sampleRand_unit_draws : unit_draws sampleRand.
Proof.
  intros n. unfold sampleRand.
  assert (H : Forall (fun u => (0 <=? u) = true /\ (u <? 1) = true) sampleDraws)
    by (repeat constructor).
  destruct (nth_in_or_default (n mod 14) sampleDraws 0.5) as [Hin | ->].
  - rewrite Forall_forall in H. exact (H _ Hin).
  - split; reflexivity.
Qed.

Lemma exp_instance_neg_zero : exp_instance neg_zero = 1.
Proof. reflexivity. Qed.

Lemma exp_instance_nan : exp_instance nan = nan.
Proof. reflexivity. Qed.

Lemma fitIteration_width (Math_exp : float -> float) (X : list (list float))
  (y : list float) (n nf : nat) (m : LogisticRegression) :
  length (weights m) = nf ->
  length (weights (fitIteration Math_exp X y n nf m)) = nf.
Proof.
  intros Hw. unfold fitIteration.
  destruct (accumulate Math_exp m X y n nf) as [dw db].
  cbn [weights]. rewrite update_step by exact Hw.
  now rewrite length_map, length_seq.
Qed.

Lemma filter_filter_length {A : Type} (f g : A -> bool) (l : list A) :
  length (List.filter g (List.filter f l))
  = length (List.filter (fun a => f a && g a) l).
Proof.
  induction l as [|a l IH]; [reflexivity|].
  cbn [List.filter]. destruct (f a); cbn [List.filter andb]; [|exact IH].
  destruct (g a); cbn [length]; now rewrite IH.
Qed.

Lemma filter_length_le {A : Type} (f : A -> bool) (l : list A) :
  (length (List.filter f l) <= length l)%nat.
Proof.
  induction l as [|a l IH]; [apply Nat.le_refl|].
  cbn [List.filter]. destruct (f a); cbn [length]; lia.
Qed.

Lemma is_nan_nanToZero (x : float) : is_nan (nanToZero x) = false.
Proof.
  unfold nanToZero. destruct (is_nan x) eqn:E; [reflexivity | exact E].
Qed.

Lemma or_zero_nanToZero (x : float) :
  or_zero (Some (nanToZero x)) = or_zero (Some x).
Proof.
  unfold nanToZero, or_zero, falsy. destruct (is_nan x) eqn:E.
  - rewrite ?E, orb_true_r. reflexivity.
  - rewrite ?E. reflexivity.
Qed.

Lemma accuracyGap_nanToZero (a : EthicsAudit) (f g : EthicsAudit -> float) :
  (10 <? accuracyGap (Some a) f g) = gapExceeds (nanToZero (f a)) (nanToZero (g a)).
Proof.
  unfold accuracyGap, gapExceeds, field. cbn [option_map].
  rewrite <- (or_zero_nanToZero (f a)), <- (or_zero_nanToZero (g a)).
  rewrite Binary64.abs_sub_or_zero by apply is_nan_nanToZero. reflexivity.
Qed.

(** * The rounds of [fit] on any input *)

Section FitFacts.

Import Loops.

Variable Math_exp : float -> float.

Lemma sub_nan_r (x : float) : x - nan = nan.
Proof.
  apply Prim2SF_inj. rewrite FloatAxioms.sub_spec.
  Binary64.eval_Prim2SF nan.
  destruct (Prim2SF x); reflexivity.
Qed.

Lemma mul_nan_l (x : float) : nan * x = nan.
Proof.
  apply Prim2SF_inj. rewrite FloatAxioms.mul_spec.
  Binary64.eval_Prim2SF nan. reflexivity.
Qed.

Lemma div_nan_l (x : float) : nan / x = nan.
Proof.
  apply Prim2SF_inj. rewrite FloatAxioms.div_spec.
  Binary64.eval_Prim2SF nan. reflexivity.
Qed.

Lemma get_repeat_nan (n k : nat) : get (repeat nan n) k = nan.
Proof. unfold get. apply nth_repeat. Qed.

Lemma map_seq_const (c : float) (f : nat -> float) (s n : nat) :
  (forall k, f k = c) -> map f (seq s n) = repeat c n.
Proof.
  intros H. rewrite (map_ext f (fun _ => c) H), map_const, length_seq. reflexivity.
Qed.

(** The loop of [fit] keeps the hyperparameters and the width of the
    weight vector. *)
Lemma fit_loop_invariant (X : list (list float)) (y : list float) (n nf rounds : nat)
  (m0 : LogisticRegression) :
  length (weights m0) = nf ->
  let m' := Nat.iter rounds (fitIteration Math_exp X y n nf) m0 in
  length (weights m') = nf
  /\ learningRate m' = learningRate m0 /\ iterations m' = iterations m0.
Proof.
  intros Hw. cbv zeta. induction rounds as [|rounds IH].
  - cbn [Nat.iter]. auto.
  - rewrite Nat.iter_succ. destruct IH as (IHw & IHr & IHi).
    split; [apply fitIteration_width; exact IHw|].
    unfold fitIteration.
    destruct (accumulate Math_exp _ X y n nf) as [dw db].
    cbn [learningRate iterations]. auto.
Qed.

(** The accumulator [dw] keeps its width along the pass over the samples. *)
Lemma accumulate_width (m : LogisticRegression) (X : list (list float))
  (y : list float) (n nf : nat) :
  length (fst (accumulate Math_exp m X y n nf)) = nf.
Proof.
  unfold accumulate. induction n as [|n IH].
  - apply repeat_length.
  - rewrite for_range_S.
    match goal with
    | H : length (fst ?st) = nf |- _ => destruct st as [dw db]
    end.
    cbn [fst] in *. rewrite accumulate_step by exact IH.
    now rewrite length_map, length_seq.
Qed.

Lemma sub_nan_l (x : float) : nan - x = nan.
Proof.
  apply Prim2SF_inj. rewrite FloatAxioms.sub_spec.
  Binary64.eval_Prim2SF nan. reflexivity.
Qed.

(** One step of the pass over the samples. *)
Lemma accumulate_S (m : LogisticRegression) (X : list (list float))
  (y : list float) (n nf : nat) :
  accumulate Math_exp m X y (S n) nf
  = (let diff := sigmoid Math_exp (linearModel m (nth n X [])) - get y n in
     (map (fun k => get (fst (accumulate Math_exp m X y n nf)) k
                    + diff * get (nth n X []) k) (seq 0 nf),
      snd (accumulate Math_exp m X y n nf) + diff)).
Proof.
  pose proof (accumulate_width m X y n nf) as Hw.
  unfold accumulate in *. rewrite for_range_S.
  match goal with
  | H : length (fst ?st) = nf |- _ => destruct st as [dw db]
  end.
  cbn [fst snd] in *. cbv zeta. now rewrite accumulate_step by exact Hw.
Qed.

(** A sample whose error is [NaN] makes the two accumulators [NaN],
    and they stay so. *)
Lemma accumulate_nan_error (m : LogisticRegression) (X : list (list float))
  (y : list float) (n nf j : nat) :
  (j < n)%nat ->
  sigmoid Math_exp (linearModel m (nth j X [])) - get y j = nan ->
  accumulate Math_exp m X y n nf = (repeat nan nf, nan).
Proof.
  intros Hj Hdiff. induction n as [|n IH]; [lia|].
  rewrite accumulate_S. cbv zeta.
  assert (j = n \/ j < n)%nat as [-> | Hlt] by lia.
  - rewrite Hdiff. f_equal.
    + apply map_seq_const. intros k. rewrite mul_nan_l. apply add_nan_r.
    + apply add_nan_r.
  - rewrite (IH Hlt). cbn [fst snd]. f_equal.
    + apply map_seq_const. intros k. rewrite get_repeat_nan. apply add_nan_l.
    + apply add_nan_l.
Qed.

(** A sample without a feature [k] makes the accumulator of that
    feature [NaN], and it stays so. *)
Lemma accumulate_nan_feature (m : LogisticRegression) (X : list (list float))
  (y : list float) (n nf j k : nat) :
  (j < n)%nat -> (k < nf)%nat -> get (nth j X []) k = nan ->
  get (fst (accumulate Math_exp m X y n nf)) k = nan.
Proof.
  intros Hj Hk Hx. induction n as [|n IH]; [lia|].
  rewrite accumulate_S. cbv zeta. cbn [fst].
  rewrite get_map_seq by exact Hk.
  assert (j = n \/ j < n)%nat as [-> | Hlt] by lia.
  - rewrite Hx, mul_nan_r. apply add_nan_r.
  - rewrite (IH Hlt). apply add_nan_l.
Qed.

Lemma fitIteration_nan_error (m : LogisticRegression) (X : list (list float))
  (y : list float) (n nf j : nat) :
  (j < n)%nat -> length (weights m) = nf ->
  sigmoid Math_exp (linearModel m (nth j X [])) - get y j = nan ->
  fitIteration Math_exp X y n nf m
  = {| weights := repeat nan nf; bias := nan;
       learningRate := learningRate m; iterations := iterations m |}.
Proof.
  intros Hj Hw Hdiff. unfold fitIteration.
  rewrite (accumulate_nan_error m X y n nf j Hj Hdiff).
  rewrite update_step by exact Hw.
  f_equal.
  - apply map_seq_const. intros k.
    now rewrite get_repeat_nan, mul_nan_r, div_nan_l, sub_nan_r.
  - now rewrite mul_nan_r, div_nan_l, sub_nan_r.
Qed.

Lemma fitIteration_nan_feature (m : LogisticRegression) (X : list (list float))
  (y : list float) (n nf j k : nat) :
  (j < n)%nat -> (k < nf)%nat -> length (weights m) = nf ->
  get (nth j X []) k = nan ->
  get (weights (fitIteration Math_exp X y n nf m)) k = nan.
Proof.
  intros Hj Hk Hw Hx. unfold fitIteration.
  pose proof (accumulate_nan_feature m X y n nf j k Hj Hk Hx) as Hdw.
  destruct (accumulate Math_exp m X y n nf) as [dw db]. cbn [fst] in Hdw.
  cbn [weights]. rewrite update_step by exact Hw.
  rewrite get_map_seq by exact Hk.
  now rewrite Hdw, mul_nan_r, div_nan_l, sub_nan_r.
Qed.

(** A weight that is [NaN] at an index of the vector poisons the sum. *)
Lemma reduce_from_nan_weight (w x : list float) (i k : nat) (acc : float) :
  (i <= k < i + length x)%nat -> get w k = nan ->
  reduce_from (fun acc val idx => acc + val * get w idx) i x acc = nan.
Proof.
  revert i acc. induction x as [|v x IH]; intros i acc Hi Hk; [cbn in Hi; lia|].
  cbn [length] in Hi. cbn [reduce_from].
  assert (i = k \/ i < k)%nat as [-> | Hlt] by lia.
  - rewrite Hk, mul_nan_r, add_nan_r. apply reduce_from_nan.
  - apply IH; [lia | exact Hk].
Qed.

(** Reading the weights past their end poisons the sum. *)
Lemma reduce_from_past_weights (w x : list float) (i : nat) (acc : float) :
  (i <= length w < i + length x)%nat ->
  reduce_from (fun acc val idx => acc + val * get w idx) i x acc = nan.
Proof.
  revert i acc. induction x as [|v x IH]; intros i acc Hi; [cbn in Hi; lia|].
  cbn [length] in Hi. cbn [reduce_from].
  assert (i = length w \/ i < length w)%nat as [-> | Hlt] by lia.
  - replace (get w (length w)) with nan
      by (unfold get; symmetry; apply nth_overflow; lia).
    rewrite mul_nan_r, add_nan_r. apply reduce_from_nan.
  - apply IH. lia.
Qed.

(** The sum only reads the weights at the indices of the vector. *)
Lemma reduce_from_ext (w w' x : list float) (i : nat) (acc : float) :
  (forall k, (i <= k < i + length x)%nat -> get w k = get w' k) ->
  reduce_from (fun acc val idx => acc + val * get w idx) i x acc
  = reduce_from (fun acc val idx => acc + val * get w' idx) i x acc.
Proof.
  revert i acc. induction x as [|v x IH]; intros i acc H; [reflexivity|].
  cbn [length] in H. cbn [reduce_from].
  rewrite (H i) by lia. apply IH. intros k Hk. apply H. lia.
Qed.

Lemma get_firstn (w : list float) (n k : nat) :
  (k < n)%nat -> get (firstn n w) k = get w k.
Proof.
  revert n k. induction w as [|h w IH]; intros n k Hk.
  - now rewrite firstn_nil.
  - destruct n as [|n]; [lia|]. destruct k as [|k]; [reflexivity|].
    cbn [firstn]. unfold get in *. cbn [nth]. apply IH. lia.
Qed.

(** On a non-empty matrix [fit] returns after [iterations] rounds, from
    zero weights and a zero bias. *)
Lemma fit_rounds (m : LogisticRegression) (X : list (list float)) (y : list float) :
  X <> [] ->
  fit Math_exp m X y
  = (Nat.iter (iterations m)
       (fitIteration Math_exp X y (length X) (length (hd [] X)))
       {| weights := zeros (length (hd [] X)); bias := 0;
          learningRate := learningRate m; iterations := iterations m |},
     Returns tt).
Proof.
  intros HX. destruct X as [|X0 X']; [contradiction|].
  unfold fit. cbn [hd]. now rewrite for_range_iter.
Qed.

(** The pass over the samples reads the labels of the rows only. *)
Lemma accumulate_labels_ext (m : LogisticRegression) (X : list (list float))
  (y y' : list float) (n nf : nat) :
  (forall j, (j < n)%nat -> get y j = get y' j) ->
  accumulate Math_exp m X y n nf = accumulate Math_exp m X y' n nf.
Proof.
  intros H. unfold accumulate. apply for_range_ext.
  intros j [dw db] Hj. now rewrite (H j Hj).
Qed.

Lemma rounds_labels_ext (X : list (list float)) (y y' : list float) (n nf r : nat)
  (m0 : LogisticRegression) :
  (forall j, (j < n)%nat -> get y j = get y' j) ->
  Nat.iter r (fitIteration Math_exp X y n nf) m0
  = Nat.iter r (fitIteration Math_exp X y' n nf) m0.
Proof.
  intros H. induction r as [|r IH]; [reflexivity|].
  rewrite !Nat.iter_succ, IH. unfold fitIteration.
  now rewrite (accumulate_labels_ext _ X y y' n nf H).
Qed.

(** A round in which the error of some sample is [NaN] leaves every
    parameter [NaN]. *)
Lemma rounds_nan_error (X : list (list float)) (y : list float) (n nf r : nat)
  (m0 : LogisticRegression) :
  length (weights m0) = nf ->
  (forall m1,
      length (weights m1) = nf ->
      m1 = Nat.iter r (fitIteration Math_exp X y n nf) m0 ->
      exists j, (j < n)%nat
                /\ sigmoid Math_exp (linearModel m1 (nth j X [])) - get y j = nan) ->
  Nat.iter (S r) (fitIteration Math_exp X y n nf) m0
  = {| weights := repeat nan nf; bias := nan;
       learningRate := learningRate m0; iterations := iterations m0 |}.
Proof.
  intros Hw0 Hstep. rewrite Nat.iter_succ.
  destruct (fit_loop_invariant X y n nf r m0 Hw0) as (Hw & Hl & Hi).
  destruct (Hstep _ Hw eq_refl) as (j & Hj & Hdiff).
  rewrite (fitIteration_nan_error _ X y n nf j Hj Hw Hdiff).
  now rewrite Hl, Hi.
Qed.

(** With fewer labels than rows one round is enough. *)
Lemma rounds_missing_labels (X : list (list float)) (y : list float) (n nf r : nat)
  (m0 : LogisticRegression) :
  (length y < n)%nat -> length (weights m0) = nf ->
  Nat.iter (S r) (fitIteration Math_exp X y n nf) m0
  = {| weights := repeat nan nf; bias := nan;
       learningRate := learningRate m0; iterations := iterations m0 |}.
Proof.
  intros Hy Hw0. apply rounds_nan_error; [exact Hw0|].
  intros m1 _ _. exists (length y). split; [exact Hy|].
  replace (get y (length y)) with nan
    by (unfold get; symmetry; apply nth_overflow; lia).
  apply sub_nan_r.
Qed.

(** [Math.exp(NaN)] is [NaN]. *)
Hypothesis exp_nan : Math_exp nan = nan.

(** On a ragged matrix two rounds are enough: a longer row reads
    [undefined] weights, and a shorter row leaves a [NaN] weight that the
    first row reads in the next round. *)
Lemma rounds_ragged (X : list (list float)) (y : list float) (r : nat)
  (m0 : LogisticRegression) :
  X <> [] -> ~ uniform_rows X -> length (weights m0) = length (hd [] X) ->
  Nat.iter (S (S r)) (fitIteration Math_exp X y (length X) (length (hd [] X))) m0
  = {| weights := repeat nan (length (hd [] X)); bias := nan;
       learningRate := learningRate m0; iterations := iterations m0 |}.
Proof.
  intros HX Hragged Hw0.
  assert (Hrow : exists j, (j < length X)%nat
                           /\ length (nth j X []) <> length (hd [] X)).
  { apply neg_Forall_Exists_neg in Hragged.
    - apply Exists_exists in Hragged. destruct Hragged as (row & Hin & Hlen).
      destruct (In_nth X row [] Hin) as (j & Hj & <-). exists j. split; assumption.
    - intros row. apply Nat.eq_dec. }
  destruct Hrow as (j & Hj & Hlen).
  assert (HX0 : length (nth 0 X []) = length (hd [] X))
    by (destruct X; [contradiction | reflexivity]).
  revert Hw0 Hlen HX0. generalize (length (hd [] X)). intros nf Hw0 Hlen HX0.
  apply rounds_nan_error; [exact Hw0|]. intros m1 Hw Hm1.
  assert (nf < length (nth j X []) \/ length (nth j X []) < nf)%nat
    as [Hgt | Hlt] by lia.
  - exists j. split; [exact Hj|]. unfold linearModel, reduce.
    rewrite reduce_from_past_weights by lia.
    now rewrite add_nan_l, (sigmoid_nan Math_exp exp_nan), sub_nan_l.
  - exists 0%nat. split; [lia|].
    assert (Hk : get (weights m1) (length (nth j X [])) = nan).
    { rewrite Hm1, Nat.iter_succ.
      destruct (fit_loop_invariant X y (length X) nf r m0 Hw0) as (Hwr & _).
      apply (fitIteration_nan_feature _ X y (length X) nf j); try assumption.
      unfold get. apply nth_overflow. lia. }
    unfold linearModel, reduce.
    rewrite (reduce_from_nan_weight _ _ 0 (length (nth j X [])))
      by (try exact Hk; rewrite HX0; lia).
    now rewrite add_nan_l, (sigmoid_nan Math_exp exp_nan), sub_nan_l.
Qed.

End FitFacts.

(** * The embedding at work *)

(** Two records from the sample draws: the first takes the Cesarean,
    Rural and complications branches, the second reaches the largest age
    (a draw of 0.999). *)
Example generateMaternityData_sample :
  generateMaternityData sampleRand 2
  = [ {| id := 1; age := 21; deliveryType := Cesarean; laborDuration := 16;
         complications := true; los := 7; location := Rural; readmitted := true |};
      {| id := 2; age := 45; deliveryType := Vaginal; laborDuration := 4;
         complications := false; los := 3; location := Urban; readmitted := false |} ].
Proof. vm_compute. reflexivity. Qed.

(** Scenario C of the specification, with the labor duration at its
    normalisation bound. *)
Example preprocessPatient_at_bounds :
  preprocessPatient
    {| id := 1; age := 45; deliveryType := Cesarean; laborDuration := 24;
       complications := true; los := 10; location := Rural; readmitted := false |}
  = [1; 1; 1; 1; 1; 1].
Proof. vm_compute. reflexivity. Qed.

(** * The claims of the specification *)

(** C1.  For every generated patient record, the ground-truth
    readmission probability compared with the Bernoulli draw is the
    additive rule: 0.05, plus 0.15 if Cesarean, plus 0.25 if
    complications, plus 0.10 if Rural, plus 0.10 if age > 35, plus 0.15 if
    Vaginal with a stay below 3 days, and nothing clamps it (the sum
    never exceeds 0.65).  The record of counter [i] compares its seventh
    draw with that sum; the record Cesarean, complications, Rural,
    age 40, stay 6 gets 0.65. *)
Theorem readmission_probability_additive :
  (forall (rnd : Rand) (count : nat),
      Forall (fun ip =>
                readmitted (snd ip)
                = (rnd (7 * fst ip + 6)%nat <? additiveProb (snd ip)))
        (combine (seq 0 count) (generateMaternityData rnd count)))
  /\ (forall p : Patient,
         readmissionProb (age p) (deliveryType p) (complications p) (los p) (location p)
         = additiveProb p)
  /\ (forall p : Patient, (additiveProb p <=? 0.65) = true)
  /\ (forall (i : Z) (labor : float) (r : bool),
         additiveProb {| id := i; age := 40; deliveryType := Cesarean;
                         laborDuration := labor; complications := true;
                         los := 6; location := Rural; readmitted := r |}
         = 0.65).
Proof.
  split; [|split; [|split]].
  - intros rnd count. rewrite Generator.generateMaternityData_map.
    apply Forall_forall. intros [i p] Hin.
    apply Generator.in_combine_seq_map in Hin. subst p.
    cbn [fst snd]. rewrite Generator.genPatient_readmitted.
    cbv zeta. rewrite Generator.readmissionProb_additive.
    replace (6 + 7 * i)%nat with (7 * i + 6)%nat by lia. reflexivity.
  - exact Generator.readmissionProb_additive.
  - intros p. unfold additiveProb.
    destruct (deliveryType p), (complications p), (location p),
      (35 <? age p), (los p <? 3); reflexivity.
  - intros i labor r. reflexivity.
Qed.

Section FitClaims.

Variable Math_exp : float -> float.

Hypothesis exp_neg_zero : Math_exp neg_zero = 1.

(** C2.  On a non-empty feature matrix with as many labels as rows,
    [fit] resets the weights to zeros (as many as the row width) and the
    bias to zero, then performs exactly [iterations] rounds of full-batch
    gradient descent: each round sums, over all samples,
    (sigmoid(dot(weights, x_j) + bias) - y_j) * x_jk per feature and the
    errors for the bias, then updates
    weight_k -= learningRate * gradient_k / sampleCount and
    bias -= learningRate * biasGradient / sampleCount (sums taken in
    sample order).  With zero iterations the weights and the bias stay at
    zero and every prediction on a feature vector, that is a vector of
    the row width with finite components, is sigmoid(0) = 0.5. *)
Theorem fit_gradient_descent (m : LogisticRegression) (X : list (list float))
  (y : list float) :
  X <> [] -> length X = length y -> uniform_rows X ->
  let width := length (hd [] X) in
  let wb := descent Math_exp (learningRate m) (iterations m) width (combine X y) in
  let m' := fst (fit Math_exp m X y) in
  snd (fit Math_exp m X y) = Returns tt
  /\ weights m' = fst wb /\ bias m' = snd wb
  /\ learningRate m' = learningRate m /\ iterations m' = iterations m
  /\ (iterations m = O ->
      weights m' = zeros width /\ bias m' = 0
      /\ forall x : list float,
          length x = width -> Forall (fun v => finite v = true) x ->
          predictProba Math_exp m' x = 0.5).
Proof.
  intros Hne Hxy Hrows. cbv zeta.
  rewrite (fit_descent Math_exp m X y Hne Hxy Hrows).
  cbn [fst snd weights bias learningRate iterations].
  repeat (split; [reflexivity|]).
  intros H0. rewrite H0. unfold descent. cbn [Nat.iter nat_rect fst snd].
  repeat (split; [reflexivity|]).
  intros x Hx Hfin.
  apply (predictProba_zero_weights Math_exp exp_neg_zero);
    cbn [weights bias]; unfold zeros; rewrite ?repeat_length;
    try reflexivity; try assumption. lia.
Qed.

End FitClaims.

Lemma fit_gradient_descent_witness :
  let m := new_LogisticRegression 0.5 0 in
  let m' := fst (fit exp_instance m sampleBatch sampleLabels) in
  snd (fit exp_instance m sampleBatch sampleLabels) = Returns tt
  /\ weights m' = fst (descent exp_instance 0.5 0 2 (combine sampleBatch sampleLabels))
  /\ bias m' = snd (descent exp_instance 0.5 0 2 (combine sampleBatch sampleLabels))
  /\ weights m' = zeros 2 /\ bias m' = 0
  /\ predictProba exp_instance m' [0.75; 1] = 0.5.
Proof.
  assert (Hne : sampleBatch <> []) by discriminate.
  assert (Hrows : uniform_rows sampleBatch) by (repeat constructor).
  destruct (fit_gradient_descent exp_instance exp_instance_neg_zero
              (new_LogisticRegression 0.5 0) sampleBatch sampleLabels
              Hne eq_refl Hrows)
    as (H1 & H2 & H3 & _ & _ & H6).
  destruct (H6 eq_refl) as (H7 & H8 & H9).
  refine (conj H1 (conj H2 (conj H3 (conj H7 (conj H8 (H9 _ eq_refl _)))))).
  repeat constructor.
Defined.

(** C3, as the code has it.  The specification says that an empty matrix, a
    ragged matrix and a matrix whose length differs from the label
    vector all make [fit] signal an error and leave the model untouched.
    The code validates nothing: here a ragged matrix with matching labels
    is trained on, the parameters are overwritten (with [NaN], from the
    read past the end of the weights), and so is a matrix with a missing
    label. *)
Lemma fit_ragged_or_mismatched_trains :
  fit exp_instance (new_LogisticRegression 0.1 1) [[1]; [1; 2]] [0; 1]
  = ({| weights := [nan]; bias := nan; learningRate := 0.1; iterations := 1 |},
     Returns tt)
  /\ fit exp_instance (new_LogisticRegression 0.1 1) [[1; 2]; [3; 4]] [0]
     = ({| weights := [nan; nan]; bias := nan; learningRate := 0.1; iterations := 1 |},
        Returns tt).
Proof. split; vm_compute; reflexivity. Qed.

(** C3 (amended).  [fit] fails synchronously, with the [TypeError] of
    reading [X[0].length], exactly when the feature matrix is empty, and
    then leaves the model as it was.  It performs no other validation:
    on every non-empty matrix, ragged or not and whatever the number of
    labels, it returns normally, and the model it leaves is the one
    obtained from zero weights (as many as the first row is wide) and a
    zero bias by all [iterations] rounds of the update loop.  So with
    zero iterations the earlier weights and bias are overwritten by
    zeros; labels beyond the rows are ignored; with fewer labels than
    rows one round leaves the bias and every weight [NaN]; and on a
    ragged matrix two rounds do (given that [Math.exp(NaN)] is [NaN]). *)
Theorem fit_throws_only_on_empty (Math_exp : float -> float)
  (m : LogisticRegression) (X : list (list float)) (y : list float) :
  (X = [] -> fit Math_exp m X y = (m, Throws TypeError))
  /\ (X <> [] ->
      let width := length (hd [] X) in
      let start := {| weights := zeros width; bias := 0;
                      learningRate := learningRate m; iterations := iterations m |} in
      let poisoned := {| weights := repeat nan width; bias := nan;
                         learningRate := learningRate m; iterations := iterations m |} in
      fit Math_exp m X y
      = (Nat.iter (iterations m) (fitIteration Math_exp X y (length X) width) start,
         Returns tt)
      /\ snd (fit Math_exp m X y) = Returns tt
      /\ length (weights (fst (fit Math_exp m X y))) = width
      /\ (iterations m = 0%nat -> fst (fit Math_exp m X y) = start)
      /\ fit Math_exp m X y = fit Math_exp m X (firstn (length X) y)
      /\ ((length y < length X)%nat -> (1 <= iterations m)%nat ->
          fst (fit Math_exp m X y) = poisoned)
      /\ (Math_exp nan = nan -> ~ uniform_rows X -> (2 <= iterations m)%nat ->
          fst (fit Math_exp m X y) = poisoned)).
Proof.
  split.
  - intros ->. reflexivity.
  - intros Hne. cbv zeta.
    rewrite (fit_rounds Math_exp m X (firstn (length X) y) Hne).
    rewrite (fit_rounds Math_exp m X y Hne). cbn [fst snd].
    set (start := {| weights := zeros (length (hd [] X)); bias := 0;
                     learningRate := learningRate m; iterations := iterations m |}).
    assert (Hstart : length (weights start) = length (hd [] X))
      by apply repeat_length.
    split; [reflexivity|]. split; [reflexivity|]. split; [|split; [|split; [|split]]].
    + exact (proj1 (fit_loop_invariant Math_exp X y _ _ (iterations m) start Hstart)).
    + intros H0. now rewrite H0.
    + f_equal. apply rounds_labels_ext. intros j Hj.
      symmetry. apply get_firstn. exact Hj.
    + intros Hy Hit. destruct (iterations m) as [|r] eqn:Hr; [lia|].
      rewrite (rounds_missing_labels Math_exp X y _ _ r start Hy Hstart).
      unfold start. cbn [learningRate iterations]. rewrite ?Hr. reflexivity.
    + intros exp_nan Hragged Hit. destruct (iterations m) as [|[|r]] eqn:Hr; try lia.
      rewrite (rounds_ragged Math_exp exp_nan X y r start Hne Hragged Hstart).
      unfold start. cbn [learningRate iterations]. rewrite ?Hr. reflexivity.
Qed.

Lemma fit_throws_only_on_empty_witness :
  fit exp_instance default_LogisticRegression [] sampleLabels
  = (default_LogisticRegression, Throws TypeError)
  /\ snd (fit exp_instance default_LogisticRegression [[1]; [1; 2]] [0; 1]) = Returns tt
  /\ length (weights (fst (fit exp_instance default_LogisticRegression
                              [[1]; [1; 2]] [0; 1]))) = 1%nat
  /\ fst (fit exp_instance (new_LogisticRegression 0.1 1) [[1; 2]; [3; 4]] [0])
     = {| weights := [nan; nan]; bias := nan; learningRate := 0.1; iterations := 1 |}
  /\ fst (fit exp_instance (new_LogisticRegression 0.1 2) [[1; 2]; [1]] [0; 1])
     = {| weights := [nan; nan]; bias := nan; learningRate := 0.1; iterations := 2 |}.
Proof.
  destruct (fit_throws_only_on_empty exp_instance default_LogisticRegression
              [] sampleLabels) as [H1 _].
  destruct (fit_throws_only_on_empty exp_instance default_LogisticRegression
              [[1]; [1; 2]] [0; 1]) as [_ H2].
  destruct (fit_throws_only_on_empty exp_instance (new_LogisticRegression 0.1 1)
              [[1; 2]; [3; 4]] [0]) as [_ H3].
  destruct (fit_throws_only_on_empty exp_instance (new_LogisticRegression 0.1 2)
              [[1; 2]; [1]] [0; 1]) as [_ H4].
  destruct H2 as (_ & H2a & H2b & _); [discriminate|].
  destruct H3 as (_ & _ & _ & _ & _ & H3 & _); [discriminate|].
  destruct H4 as (_ & _ & _ & _ & _ & _ & H4); [discriminate|].
  refine (conj (H1 eq_refl) (conj H2a (conj H2b (conj (H3 _ _) (H4 _ _ _))))).
  - cbn. lia.
  - cbn. lia.
  - exact exp_instance_nan.
  - intros Hu. apply Forall_inv_tail, Forall_inv in Hu. discriminate Hu.
  - cbn. lia.
Defined.

(** C4, as the code has it.  The specification says that a subgroup predicate
    matching no record yields an explicit non-numeric "no data" result,
    never a [NaN].  The code divides without looking at the size of the
    group: on a cohort without Vaginal deliveries the Vaginal audit is
    0 / 0 * 100, which is [NaN]. *)
Lemma auditGroup_empty_subgroup_is_nan :
  auditGroup exp_instance zeroModel cesareanUrbanCohort
    (fun p => DeliveryType_eqb (deliveryType p) Vaginal)
  = nan.
Proof. vm_compute. reflexivity. Qed.

(** C4 (amended).  [auditGroup] has no empty-partition check and its
    result is always a number value.  For every predicate it returns
    (matching records whose predicted label equals the ground-truth
    label) / (matching records) * 100; when no record matches this is
    0 / 0 * 100 = [NaN], and when at least one record matches (in a
    cohort of fewer than 2^63 records) it is not [NaN].  So [NaN] marks
    exactly the empty partitions, and no separate "no data" value
    exists. *)
Theorem auditGroup_accuracy (Math_exp : float -> float) (model : LogisticRegression)
  (data : list Patient) (filter : Patient -> bool) :
  auditGroup Math_exp model data filter = subgroupAccuracy Math_exp model data filter
  /\ (List.filter filter data = [] -> auditGroup Math_exp model data filter = nan)
  /\ (List.filter filter data <> [] -> (Z.of_nat (length data) < 2 ^ 63)%Z ->
      is_nan (auditGroup Math_exp model data filter) = false).
Proof.
  split; [|split].
  - unfold auditGroup, subgroupAccuracy. now rewrite filter_filter_length.
  - intros H. unfold auditGroup. rewrite H. reflexivity.
  - intros Hne Hlen. unfold auditGroup.
    pose proof (filter_length_le filter data) as H1.
    pose proof (filter_length_le
                  (fun p => predict Math_exp model (preprocessPatient p)
                            =? (if readmitted p then 1 else 0))
                  (List.filter filter data)) as H2.
    apply Binary64.percentage_not_nan; [lia|].
    destruct (List.filter filter data); [contradiction | cbn [length] in *; lia].
Qed.

Lemma auditGroup_accuracy_witness :
  auditGroup exp_instance zeroModel cesareanUrbanCohort
    (fun p => DeliveryType_eqb (deliveryType p) Vaginal) = nan
  /\ is_nan (auditGroup exp_instance zeroModel cesareanUrbanCohort
               (fun p => DeliveryType_eqb (deliveryType p) Cesarean)) = false.
Proof.
  destruct (auditGroup_accuracy exp_instance zeroModel cesareanUrbanCohort
              (fun p => DeliveryType_eqb (deliveryType p) Vaginal)) as (_ & H2 & _).
  destruct (auditGroup_accuracy exp_instance zeroModel cesareanUrbanCohort
              (fun p => DeliveryType_eqb (deliveryType p) Cesarean)) as (_ & _ & H3).
  refine (conj (H2 eq_refl) (H3 _ eq_refl)). discriminate.
Defined.

(** C5, as the code has it.  The specification says that a freshly constructed
    model predicts the constant 0.5 (label 1) because its weights are all
    zero.  The constructor leaves the weight array empty, so on an
    encoded patient every read [weights[idx]] is [undefined]: the
    probability is [NaN] and the label is 0. *)
Lemma untrained_predicts_nan :
  let x := preprocessPatient samplePatient in
  predictProba exp_instance default_LogisticRegression x = nan
  /\ predict exp_instance default_LogisticRegression x = 0.
Proof. split; vm_compute; reflexivity. Qed.

Section UntrainedClaims.

Variable Math_exp : float -> float.

Hypothesis exp_neg_zero : Math_exp neg_zero = 1.

Hypothesis exp_nan : Math_exp nan = nan.

(** C5 (amended).  [predictProba] and [predict] on a freshly constructed
    model never throw.  The weight array is empty at construction, so
    for every non-empty feature vector the probability is [NaN] and the
    label is 0; only for the empty vector is the probability
    sigmoid(bias) = 0.5 and the label 1. *)
Theorem untrained_prediction (rate : float) (rounds : nat) (x : list float) :
  let m := new_LogisticRegression rate rounds in
  (x <> [] -> predictProba Math_exp m x = nan /\ predict Math_exp m x = 0)
  /\ (x = [] -> predictProba Math_exp m x = 0.5 /\ predict Math_exp m x = 1).
Proof.
  cbv zeta. split.
  - intros Hx.
    assert (Hp : predictProba Math_exp (new_LogisticRegression rate rounds) x = nan).
    { unfold predictProba. rewrite linearModel_no_weights by (reflexivity || assumption).
      exact (sigmoid_nan Math_exp exp_nan). }
    split; [exact Hp|]. unfold predict. rewrite Hp. reflexivity.
  - intros ->.
    assert (Hp : predictProba Math_exp (new_LogisticRegression rate rounds) [] = 0.5).
    { unfold predictProba, linearModel, reduce. cbn [reduce_from bias new_LogisticRegression].
      change (0 + 0) with 0. exact (sigmoid_zero Math_exp exp_neg_zero). }
    split; [exact Hp|]. unfold predict. rewrite Hp. reflexivity.
Qed.

End UntrainedClaims.

Lemma untrained_prediction_witness :
  let m := new_LogisticRegression 0.1 1000 in
  (predictProba exp_instance m [0.5; 1; 0.25] = nan
   /\ predict exp_instance m [0.5; 1; 0.25] = 0)
  /\ (predictProba exp_instance m [] = 0.5 /\ predict exp_instance m [] = 1).
Proof.
  destruct (untrained_prediction exp_instance exp_instance_neg_zero exp_instance_nan
              0.1 1000 [0.5; 1; 0.25]) as [H1 _].
  destruct (untrained_prediction exp_instance exp_instance_neg_zero exp_instance_nan
              0.1 1000 []) as [_ H2].
  refine (conj (H1 _) (H2 eq_refl)). discriminate.
Defined.

(** C6.  [preprocessPatient] (encode) is a function of the record whose
    result is exactly the six numbers age/45, 1 for Cesarean else 0,
    laborDuration/24, 1 for complications else 0, los/10, 1 for Rural
    else 0, in that order; the divisors are the constants 45, 24 and 10.
    It reads no other field, so two records that agree on the six
    encoded fields have the same vector. *)
Theorem preprocessPatient_encoding (p : Patient) :
  length (preprocessPatient p) = 6%nat
  /\ get (preprocessPatient p) 0 = age p / 45
  /\ get (preprocessPatient p) 1
     = match deliveryType p with Cesarean => 1 | Vaginal => 0 end
  /\ get (preprocessPatient p) 2 = laborDuration p / 24
  /\ get (preprocessPatient p) 3 = (if complications p then 1 else 0)
  /\ get (preprocessPatient p) 4 = los p / 10
  /\ get (preprocessPatient p) 5
     = match location p with Rural => 1 | Urban => 0 end
  /\ (forall q : Patient,
         age q = age p -> deliveryType q = deliveryType p ->
         laborDuration q = laborDuration p -> complications q = complications p ->
         los q = los p -> location q = location p ->
         preprocessPatient q = preprocessPatient p).
Proof.
  unfold preprocessPatient at 2 3 4 5 6 7. unfold get. cbn [nth].
  repeat split; try reflexivity.
  - destruct (deliveryType p); reflexivity.
  - destruct (location p); reflexivity.
  - intros q Ha Hd Hl Hc Hs Ho. unfold preprocessPatient.
    now rewrite Ha, Hd, Hl, Hc, Hs, Ho.
Qed.

Lemma preprocessPatient_encoding_witness :
  get (preprocessPatient samplePatient) 0 = 30 / 45
  /\ preprocessPatient
       {| id := 2; age := 30; deliveryType := Cesarean; laborDuration := 10;
          complications := false; los := 4; location := Urban; readmitted := false |}
     = preprocessPatient samplePatient.
Proof.
  destruct (preprocessPatient_encoding samplePatient)
    as (_ & H0 & _ & _ & _ & _ & _ & Hq).
  exact (conj H0 (Hq _ eq_refl eq_refl eq_refl eq_refl eq_refl eq_refl)).
Defined.

(** C7, as the code has it.  The specification states the flag on the
    four accuracies.  The panel first replaces an accuracy that is
    [NaN] by 0 (its [|| 0]); a cohort with no Vaginal delivery and no
    Rural record audits to [NaN] for these two subgroups, and the flag is
    raised although no difference of the four accuracies exceeds 10. *)
Lemma biasFlag_empty_subgroup_raised :
  let a := {| accVaginal := nan; accCesarean := 100;
              accUrban := 100; accRural := nan |} in
  ethicsAudit exp_instance (Some zeroModel) cesareanUrbanCohort = Some a
  /\ biasFlag (Some a) = true
  /\ biasFlagSpec a = false.
Proof. repeat split; vm_compute; reflexivity. Qed.

(** C7 (amended).  The bias flag is raised exactly when
    |accVaginal - accCesarean| > 10 or |accUrban - accRural| > 10, where
    an accuracy that is [NaN] (an empty subgroup) counts as 0; when none
    of the four accuracies is [NaN] this is the condition on the
    accuracies themselves.  The comparison is strict: a difference of
    exactly 10 does not raise the flag.  Without an audit the flag is
    not raised. *)
Theorem biasFlag_threshold (a : EthicsAudit) :
  biasFlag (Some a) = biasFlagSpec (nanToZeroAudit a)
  /\ (is_nan (accVaginal a) = false -> is_nan (accCesarean a) = false ->
      is_nan (accUrban a) = false -> is_nan (accRural a) = false ->
      biasFlag (Some a) = biasFlagSpec a)
  /\ (forall x y : float, abs (x - y) = 10 -> gapExceeds x y = false)
  /\ biasFlag None = false.
Proof.
  assert (H : biasFlag (Some a) = biasFlagSpec (nanToZeroAudit a)).
  { unfold biasFlag, biasFlagSpec, nanToZeroAudit.
    cbn [accVaginal accCesarean accUrban accRural].
    now rewrite !accuracyGap_nanToZero. }
  split; [exact H|]. split; [|split].
  - intros Hv Hc Hu Hr. rewrite H. unfold nanToZeroAudit, nanToZero.
    rewrite Hv, Hc, Hu, Hr. destruct a; reflexivity.
  - intros x y E. unfold gapExceeds. rewrite E. reflexivity.
  - reflexivity.
Qed.

Lemma biasFlag_threshold_witness :
  let a := {| accVaginal := 90; accCesarean := 80; accUrban := 75; accRural := 64.5 |} in
  biasFlag (Some a) = biasFlagSpec a
  /\ gapExceeds 90 80 = false.
Proof.
  destruct (biasFlag_threshold
              {| accVaginal := 90; accCesarean := 80; accUrban := 75; accRural := 64.5 |})
    as (_ & H2 & H3 & _).
  exact (conj (H2 eq_refl eq_refl eq_refl eq_refl) (H3 90 80 eq_refl)).
Defined.

(** C8.  For every count and every outcome of the random draws,
    [generateMaternityData] returns exactly [count] records, with ids
    1 .. count in order (so no two records share an id), and every
    record has 18 <= age <= 45, 4 <= laborDuration <= 23 and los >= 2. *)
Theorem generate_ids_and_ranges (rnd : Rand) (count : nat) :
  unit_draws rnd ->
  let patients := generateMaternityData rnd count in
  length patients = count
  /\ map id patients = map Z.of_nat (seq 1 count)
  /\ NoDup (map id patients)
  /\ Forall (fun p => fieldRanges p = true) patients.
Proof.
  intros Hr. cbv zeta. rewrite Generator.generateMaternityData_map.
  assert (Hids : map id (map (fun i => fst (genPatient rnd i (7 * i)%nat)) (seq 0 count))
                 = map Z.of_nat (seq 1 count)).
  { rewrite <- seq_shift, !map_map. apply map_ext. intros i.
    rewrite Generator.genPatient_id. lia. }
  split; [now rewrite length_map, length_seq|].
  split; [exact Hids|]. split.
  - rewrite Hids. apply Injective_map_NoDup; [|apply seq_NoDup].
    intros a b. apply Nat2Z.inj.
  - apply Forall_forall. intros p Hin. apply in_map_iff in Hin.
    destruct Hin as (i & <- & _).
    destruct (Generator.genPatient_fields rnd i (7 * i)%nat Hr) as (Ha & Hl & Hs).
    unfold fieldRanges.
    assert (Hage : forallb (fun v => (18 <=? v) && (v <=? 45)) ageValues = true)
      by (vm_compute; reflexivity).
    assert (Hlab : forallb (fun v => (4 <=? v) && (v <=? 23)) laborDurationValues = true)
      by (vm_compute; reflexivity).
    assert (Hlos : forallb (fun v => 2 <=? v) losValues = true)
      by (vm_compute; reflexivity).
    rewrite forallb_forall in Hage, Hlab, Hlos.
    apply Hage in Ha. apply Hlab in Hl. apply Hlos in Hs.
    cbv beta in Ha, Hl, Hs.
    apply andb_prop in Ha as [-> ->]. apply andb_prop in Hl as [-> ->].
    rewrite Hs. reflexivity.
Qed.

Lemma generate_ids_and_ranges_witness :
  let patients := generateMaternityData sampleRand 3 in
  length patients = 3%nat
  /\ map id patients = map Z.of_nat (seq 1 3)
  /\ NoDup (map id patients)
  /\ Forall (fun p => fieldRanges p = true) patients.
Proof.
  exact (generate_ids_and_ranges sampleRand 3 sampleRand_unit_draws).
Defined.

(** C9.  For every feature vector, [predict] (predictLabel) is 1 exactly
    when [predictProba] is at least 0.5, the boundary 0.5 included, and
    is 0 otherwise. *)
Theorem predict_threshold (Math_exp : float -> float) (m : LogisticRegression)
  (x : list float) :
  (predict Math_exp m x = 1 <-> (0.5 <=? predictProba Math_exp m x) = true)
  /\ (predict Math_exp m x = 0 <-> (0.5 <=? predictProba Math_exp m x) = false)
  /\ (predictProba Math_exp m x = 0.5 -> predict Math_exp m x = 1).
Proof.
  unfold predict.
  assert (H10 : (1 : float) <> 0).
  { intros E. apply (f_equal (fun v => v =? 0)) in E. vm_compute in E. discriminate. }
  split; [|split].
  - destruct (0.5 <=? predictProba Math_exp m x); split; intros H;
      first [reflexivity | discriminate | exfalso; apply H10; congruence].
  - destruct (0.5 <=? predictProba Math_exp m x); split; intros H;
      first [reflexivity | discriminate | exfalso; apply H10; congruence].
  - intros ->. reflexivity.
Qed.

Lemma predict_threshold_witness :
  predict exp_instance zeroModel (preprocessPatient samplePatient) = 1
  /\ predict exp_instance default_LogisticRegression (preprocessPatient samplePatient) = 0.
Proof.
  destruct (predict_threshold exp_instance zeroModel (preprocessPatient samplePatient))
    as (_ & _ & H1).
  destruct (predict_threshold exp_instance default_LogisticRegression
              (preprocessPatient samplePatient)) as (_ & [_ H0] & _).
  exact (conj (H1 eq_refl) (H0 eq_refl)).
Defined.

(** C10.  For every patient record produced by the generator (whose
    fields therefore lie in the generator's ranges), every component of
    the encoded feature vector lies in the closed interval [0, 1]. *)
Theorem generated_features_in_unit_interval (rnd : Rand) (count : nat) (p : Patient) :
  unit_draws rnd ->
  In p (generateMaternityData rnd count) ->
  Forall (fun v => in_unit_interval v = true) (preprocessPatient p).
Proof.
  intros Hr Hin. rewrite Generator.generateMaternityData_map in Hin.
  apply in_map_iff in Hin. destruct Hin as (i & <- & _).
  destruct (Generator.genPatient_fields rnd i (7 * i)%nat Hr) as (Ha & Hl & Hs).
  set (p := fst (genPatient rnd i (7 * i)%nat)) in *.
  assert (Hage : forallb (fun v => in_unit_interval (v / 45)) ageValues = true)
    by (vm_compute; reflexivity).
  assert (Hlab : forallb (fun v => in_unit_interval (v / 24)) laborDurationValues = true)
    by (vm_compute; reflexivity).
  assert (Hlos : forallb (fun v => in_unit_interval (v / 10)) losValues = true)
    by (vm_compute; reflexivity).
  rewrite forallb_forall in Hage, Hlab, Hlos.
  unfold preprocessPatient.
  repeat (apply Forall_cons || apply Forall_nil).
  - exact (Hage _ Ha).
  - destruct (DeliveryType_eqb (deliveryType p) Cesarean); reflexivity.
  - exact (Hlab _ Hl).
  - destruct (complications p); reflexivity.
  - exact (Hlos _ Hs).
  - destruct (Location_eqb (location p) Rural); reflexivity.
Qed.

Lemma generated_features_in_unit_interval_witness :
  Forall (fun v => in_unit_interval v = true)
    (preprocessPatient (nth 1 (generateMaternityData sampleRand 3)
                          (fst (genPatient sampleRand 0%nat 0%nat)))).
Proof.
  apply (generated_features_in_unit_interval sampleRand 3).
  - exact sampleRand_unit_draws.
  - apply nth_In. vm_compute. lia.
Defined.

(** * Independence of the evaluations from the choice of [Math.exp]

    The evaluations at [exp_instance] above only reach [Math.exp(-0)]
    and [Math.exp(NaN)], whose values ECMAScript fixes; they come out the
    same for every [Math.exp]. *)

Section AnyExp.

Variable Math_exp : float -> float.

Hypothesis exp_neg_zero : Math_exp neg_zero = 1.

Hypothesis exp_nan : Math_exp nan = nan.

Ltac eval_exp :=
  vm_compute;
  repeat match goal with
    | |- context [Math_exp ?v] =>
        first [ replace (Math_exp v) with 1 by (symmetry; exact exp_neg_zero)
              | replace (Math_exp v) with nan by (symmetry; exact exp_nan) ]
    end;
  reflexivity.

Lemma fit_ragged_any_exp :
  fit Math_exp (new_LogisticRegression 0.1 1) [[1]; [1; 2]] [0; 1]
  = ({| weights := [nan]; bias := nan; learningRate := 0.1; iterations := 1 |},
     Returns tt).
Proof. eval_exp. Qed.

Lemma fit_mismatched_any_exp :
  fit Math_exp (new_LogisticRegression 0.1 1) [[1; 2]; [3; 4]] [0]
  = ({| weights := [nan; nan]; bias := nan; learningRate := 0.1; iterations := 1 |},
     Returns tt).
Proof. eval_exp. Qed.

Lemma ethicsAudit_empty_subgroups_any_exp :
  ethicsAudit Math_exp (Some zeroModel) cesareanUrbanCohort
  = Some {| accVaginal := nan; accCesarean := 100; accUrban := 100; accRural := nan |}.
Proof. eval_exp. Qed.

End AnyExp.

(** * Further properties of the code *)

(** ** The order of binary64 values *)

Module Order.

Local Open Scope Z_scope.

Lemma SFcompare_key (x y : spec_float) :
  x <> S754_nan -> y <> S754_nan ->
  match SFcompare x y with
  | Some Lt => orderKey_lt (orderKey x) (orderKey y)
  | Some Eq => orderKey x = orderKey y
  | Some Gt => orderKey_lt (orderKey y) (orderKey x)
  | None => False
  end.
Proof.
  intros Hx Hy.
  destruct x as [sx | [|] | | [|] mx ex]; try contradiction;
    destruct y as [sy | [|] | | [|] my ey]; try contradiction;
    cbn [SFcompare orderKey orderKey_lt]; try lia; try reflexivity.
  - change (Pos.compare_cont Eq mx my) with (Z.compare (Zpos mx) (Zpos my)).
    destruct (Z.compare_spec ex ey); destruct (Z.compare_spec (Zpos mx) (Zpos my));
      cbn [CompOpp]; first [lia | congruence | idtac].
    all: try (f_equal; [f_equal; lia | lia]).
  - change (Pos.compare_cont Eq mx my) with (Z.compare (Zpos mx) (Zpos my)).
    destruct (Z.compare_spec ex ey); destruct (Z.compare_spec (Zpos mx) (Zpos my));
      first [lia | congruence | idtac].
    all: try (f_equal; [f_equal; lia | lia]).
Qed.

Lemma orderKey_lt_irrefl (a : Z * Z * Z) : ~ orderKey_lt a a.
Proof. destruct a as [[a1 a2] a3]. cbn. lia. Qed.

Lemma orderKey_lt_trans (a b c : Z * Z * Z) : orderKey_lt a b -> orderKey_lt b c -> orderKey_lt a c.
Proof.
  destruct a as [[a1 a2] a3], b as [[b1 b2] b3], c as [[c1 c2] c3]. cbn. lia.
Qed.

Lemma SFcompare_not_nan (x y : spec_float) (c : comparison) :
  SFcompare x y = Some c -> x <> S754_nan /\ y <> S754_nan.
Proof.
  destruct x as [sx | [|] | | [|] mx ex]; destruct y as [sy | [|] | | [|] my ey];
    cbn [SFcompare]; intros H; split; congruence.
Qed.

Lemma SFltb_key (x y : spec_float) :
  SFltb x y = true <->
  x <> S754_nan /\ y <> S754_nan /\ orderKey_lt (orderKey x) (orderKey y).
Proof.
  unfold SFltb. split.
  - destruct (SFcompare x y) as [[| |] |] eqn:Hc; try discriminate. intros _.
    destruct (SFcompare_not_nan _ _ _ Hc) as [Hx Hy].
    pose proof (SFcompare_key x y Hx Hy) as Hk. rewrite Hc in Hk. auto.
  - intros (Hx & Hy & Hlt).
    pose proof (SFcompare_key x y Hx Hy) as Hk.
    destruct (SFcompare x y) as [[| |] |]; try reflexivity.
    + rewrite Hk in Hlt. destruct (orderKey_lt_irrefl _ Hlt).
    + destruct (orderKey_lt_irrefl _ (orderKey_lt_trans _ _ _ Hlt Hk)).
    + destruct Hk.
Qed.

Lemma SFleb_key (x y : spec_float) :
  SFleb x y = true <->
  x <> S754_nan /\ y <> S754_nan /\ (orderKey_lt (orderKey x) (orderKey y) \/ orderKey x = orderKey y).
Proof.
  unfold SFleb. split.
  - destruct (SFcompare x y) as [[| |] |] eqn:Hc; try discriminate; intros _;
      destruct (SFcompare_not_nan _ _ _ Hc) as [Hx Hy];
      pose proof (SFcompare_key x y Hx Hy) as Hk; rewrite Hc in Hk; auto.
  - intros (Hx & Hy & Hle).
    pose proof (SFcompare_key x y Hx Hy) as Hk.
    destruct (SFcompare x y) as [[| |] |]; try reflexivity.
    + destruct Hle as [Hlt | Heq].
      * destruct (orderKey_lt_irrefl _ (orderKey_lt_trans _ _ _ Hlt Hk)).
      * rewrite Heq in Hk. destruct (orderKey_lt_irrefl _ Hk).
    + destruct Hk.
Qed.

(** The order of the numbers is transitive (NaN is below and above
    nothing). *)
Lemma ltb_leb_trans (x y z : float) :
  (x <? y)%float = true -> (y <=? z)%float = true -> (x <? z)%float = true.
Proof.
  rewrite !FloatAxioms.ltb_spec, FloatAxioms.leb_spec, !SFltb_key, SFleb_key.
  intros (Hx & Hy & Hxy) (_ & Hz & [Hyz | Hyz]).
  - repeat split; auto. eapply orderKey_lt_trans; eauto.
  - repeat split; auto. rewrite <- Hyz. exact Hxy.
Qed.

Lemma leb_ltb_trans (x y z : float) :
  (x <=? y)%float = true -> (y <? z)%float = true -> (x <? z)%float = true.
Proof.
  rewrite !FloatAxioms.ltb_spec, FloatAxioms.leb_spec, !SFltb_key, SFleb_key.
  intros (Hx & Hy & [Hxy | Hxy]) (_ & Hz & Hyz).
  - repeat split; auto. eapply orderKey_lt_trans; eauto.
  - repeat split; auto. rewrite Hxy. exact Hyz.
Qed.

Lemma ltb_leb (x y : float) :
  (x <? y)%float = true -> (x <=? y)%float = true.
Proof.
  rewrite FloatAxioms.ltb_spec, FloatAxioms.leb_spec, SFltb_key, SFleb_key.
  intros (Hx & Hy & Hxy). auto.
Qed.

Lemma ltb_asym (x y : float) :
  (x <? y)%float = true -> (y <=? x)%float = false.
Proof.
  intros Hxy. destruct (y <=? x)%float eqn:Hyx; [| reflexivity].
  pose proof (ltb_leb_trans _ _ _ Hxy Hyx) as Hxx.
  rewrite FloatAxioms.ltb_spec, SFltb_key in Hxx.
  destruct Hxx as (_ & _ & Hxx). destruct (orderKey_lt_irrefl _ Hxx).
Qed.

End Order.

(** ** The generator *)

Module GeneratorFacts.

Import Loops.

Lemma integerBetween_values (lo n : nat) (vs : list float) (v : float) :
  (0 < n)%nat -> vs = num lo :: map num (seq lo n) -> In v vs ->
  integerBetween lo (lo + n - 1) v.
Proof.
  intros Hn -> [<- | Hin].
  - exists lo. split; [lia | reflexivity].
  - apply in_map_iff in Hin. destruct Hin as (k & <- & Hk).
    apply in_seq in Hk. exists k. split; [lia | reflexivity].
Qed.

Lemma in_generated (rnd : Rand) (count : nat) (p : Patient) :
  In p (generateMaternityData rnd count) ->
  exists i, (i < count)%nat /\ p = fst (genPatient rnd i (7 * i)%nat).
Proof.
  rewrite Generator.generateMaternityData_map. intros Hin.
  apply in_map_iff in Hin. destruct Hin as (i & <- & Hi).
  apply in_seq in Hi. exists i. split; [lia | reflexivity].
Qed.

Lemma nth_error_map_seq {A : Type} (f : nat -> A) (n s i : nat) (a : A) :
  nth_error (map f (seq s n)) i = Some a -> a = f (s + i)%nat.
Proof.
  revert s i. induction n as [|n IH]; intros s [|i] H; cbn in H; try discriminate.
  - injection H as <-. f_equal. lia.
  - rewrite (IH _ _ H). f_equal. lia.
Qed.

Lemma nth_generated (rnd : Rand) (count i : nat) (p : Patient) :
  nth_error (generateMaternityData rnd count) i = Some p ->
  p = fst (genPatient rnd i (7 * i)%nat).
Proof.
  rewrite Generator.generateMaternityData_map. intros Hn.
  exact (nth_error_map_seq _ _ _ _ _ Hn).
Qed.

(** The stay of a record: its base is 4 for a Cesarean delivery and 2
    otherwise, complications add 2, and the last draw adds 0 or 1. *)
Lemma genPatient_los (rnd : Rand) (i n : nat) :
  unit_draws rnd ->
  let p := fst (genPatient rnd i n) in
  exists f, In f (floorsBelow 2)
    /\ los p = (if complications p
                then (if DeliveryType_eqb (deliveryType p) Cesarean then 4 else 2) + 2
                else (if DeliveryType_eqb (deliveryType p) Cesarean then 4 else 2)) + f.
Proof.
  intros Hr. destruct (Hr (5 + n)%nat) as [Hs0 Hs1].
  cbv zeta. unfold genPatient, bind, Math_random, ret.
  cbn [fst los complications deliveryType].
  eexists. split; [exact (Binary64.Math_floor_draw_2 _ Hs0 Hs1) | reflexivity].
Qed.

Lemma genPatient_ext (rnd rnd' : Rand) (i n : nat) :
  (forall j, (n <= j < n + 7)%nat -> rnd j = rnd' j) ->
  genPatient rnd i n = genPatient rnd' i n.
Proof.
  intros H. unfold genPatient, bind, Math_random, ret.
  rewrite (H n), (H (S n)), (H (S (S n))), (H (S (S (S n)))),
    (H (S (S (S (S n))))), (H (S (S (S (S (S n)))))),
    (H (S (S (S (S (S (S n))))))) by lia.
  reflexivity.
Qed.

End GeneratorFacts.

(** X1.  Every generated record has whole numbers in its three numeric
    fields: an age among 18 .. 45, a labor duration among 4 .. 23 (24 is
    never produced) and a stay among 2 .. 7. *)
Theorem generated_fields_are_integers (rnd : Rand) (count : nat) (p : Patient) :
  unit_draws rnd ->
  In p (generateMaternityData rnd count) ->
  integerBetween 18 45 (age p)
  /\ integerBetween 4 23 (laborDuration p)
  /\ integerBetween 2 7 (los p).
Proof.
  intros Hr Hin.
  destruct (GeneratorFacts.in_generated _ _ _ Hin) as (i & _ & ->).
  destruct (Generator.genPatient_fields rnd i (7 * i)%nat Hr) as (Ha & Hl & Hs).
  split; [|split].
  - apply (GeneratorFacts.integerBetween_values 18 28 ageValues); [lia | | exact Ha].
    vm_compute. reflexivity.
  - apply (GeneratorFacts.integerBetween_values 4 20 laborDurationValues); [lia | | exact Hl].
    vm_compute. reflexivity.
  - assert (In (los (fst (genPatient rnd i (7 * i)%nat)))
              (num 2 :: map num (seq 2 6))) as Hs'.
    { revert Hs. generalize (los (fst (genPatient rnd i (7 * i)%nat))). intros v.
      unfold losValues, floorsBelow. cbn [flat_map map seq app In].
      intros Hv. repeat (destruct Hv as [<- | Hv]; [vm_compute; tauto |]).
      destruct Hv. }
    apply (GeneratorFacts.integerBetween_values 2 6 _ _ ltac:(lia) eq_refl Hs').
Qed.

Lemma generated_fields_are_integers_witness :
  integerBetween 18 45 (age (nth 0 (generateMaternityData sampleRand 2) samplePatient))
  /\ integerBetween 4 23
       (laborDuration (nth 0 (generateMaternityData sampleRand 2) samplePatient))
  /\ integerBetween 2 7 (los (nth 0 (generateMaternityData sampleRand 2) samplePatient)).
Proof.
  apply (generated_fields_are_integers sampleRand 2).
  - exact sampleRand_unit_draws.
  - left. reflexivity.
Defined.

(** X2.  The stay of a generated record follows its delivery: a
    Cesarean delivery or complications give a stay of at least 4 days,
    both together at least 6, and a stay below 3 days only occurs for a
    Vaginal delivery without complications.  So the test of the
    delivery type beside [los < 3] in the readmission rule never
    changes its outcome on generated records. *)
Theorem generated_stay_follows_delivery (rnd : Rand) (count : nat) (p : Patient) :
  unit_draws rnd ->
  In p (generateMaternityData rnd count) ->
  (deliveryType p = Cesarean \/ complications p = true -> (4 <=? los p) = true)
  /\ (deliveryType p = Cesarean -> complications p = true -> (6 <=? los p) = true)
  /\ ((los p <? 3) = true -> deliveryType p = Vaginal /\ complications p = false)
  /\ (los p <? 3) && DeliveryType_eqb (deliveryType p) Vaginal = (los p <? 3).
Proof.
  intros Hr Hin.
  destruct (GeneratorFacts.in_generated _ _ _ Hin) as (i & _ & ->).
  destruct (GeneratorFacts.genPatient_los rnd i (7 * i)%nat Hr) as (f & Hf & Hlos).
  revert Hlos. generalize (fst (genPatient rnd i (7 * i)%nat)). intros p Hlos.
  rewrite Hlos. clear Hlos.
  unfold floorsBelow in Hf. cbn [map seq In] in Hf.
  destruct Hf as [<- | [<- | [<- | []]]];
    destruct (deliveryType p), (complications p); cbn [DeliveryType_eqb];
    (split; [|split; [|split]]);
    try (intros; reflexivity);
    try (intros [H | H]; discriminate H);
    try (intros H; discriminate H);
    try (intros H1 H2; discriminate);
    try (intros; split; reflexivity);
    try reflexivity.
Qed.

Lemma generated_stay_follows_delivery_witness :
  let p := nth 0 (generateMaternityData sampleRand 2) samplePatient in
  (deliveryType p = Cesarean \/ complications p = true -> (4 <=? los p) = true)
  /\ (deliveryType p = Cesarean -> complications p = true -> (6 <=? los p) = true)
  /\ ((los p <? 3) = true -> deliveryType p = Vaginal /\ complications p = false)
  /\ (los p <? 3) && DeliveryType_eqb (deliveryType p) Vaginal = (los p <? 3).
Proof.
  apply (generated_stay_follows_delivery sampleRand 2).
  - exact sampleRand_unit_draws.
  - left. reflexivity.
Defined.

(** X3.  The records are generated one after the other from seven draws
    each: a shorter cohort is the beginning of a longer one, and the
    first [n] records only depend on the first [7 n] draws. *)
Theorem generated_prefix (rnd rnd' : Rand) (n k : nat) :
  (forall j, (j < 7 * n)%nat -> rnd j = rnd' j) ->
  firstn n (generateMaternityData rnd' (n + k)) = generateMaternityData rnd n.
Proof.
  intros H. rewrite !Generator.generateMaternityData_map.
  rewrite seq_app, map_app, firstn_app.
  rewrite length_map, length_seq, Nat.sub_diag, firstn_O, app_nil_r.
  rewrite firstn_all2 by (rewrite length_map, length_seq; lia).
  apply map_ext_in. intros i Hi. apply in_seq in Hi.
  f_equal. symmetry. apply GeneratorFacts.genPatient_ext.
  intros j Hj. apply H. lia.
Qed.

Lemma generated_prefix_witness :
  firstn 2 (generateMaternityData sampleRand (2 + 3)) = generateMaternityData sampleRand 2.
Proof.
  apply (generated_prefix sampleRand sampleRand 2 3).
  intros j _. reflexivity.
Defined.

(** X4.  The Bernoulli draw of a record against its readmission
    probability: the probability is at least the base 0.05 and at most
    0.65, so a seventh draw below 0.05 always marks the record as
    readmitted, and a seventh draw of 0.65 or more never does. *)
Theorem readmission_draw_extremes (rnd : Rand) (count i : nat) (p : Patient) :
  nth_error (generateMaternityData rnd count) i = Some p ->
  (0.05 <=? additiveProb p) = true
  /\ ((rnd (7 * i + 6)%nat <? 0.05) = true -> readmitted p = true)
  /\ ((0.65 <=? rnd (7 * i + 6)%nat) = true -> readmitted p = false).
Proof.
  intros Hn. apply GeneratorFacts.nth_generated in Hn. subst p.
  rewrite Generator.genPatient_readmitted. cbv zeta.
  rewrite Generator.readmissionProb_additive.
  replace (6 + 7 * i)%nat with (7 * i + 6)%nat by lia.
  generalize (fst (genPatient rnd i (7 * i)%nat)). intros p.
  assert ((0.05 <=? additiveProb p) = true /\ (additiveProb p <=? 0.65) = true)
    as [Hlo Hhi].
  { unfold additiveProb.
    destruct (deliveryType p), (complications p), (location p),
      (35 <? age p), (los p <? 3); split; reflexivity. }
  split; [exact Hlo | split].
  - intros Hr. exact (Order.ltb_leb_trans _ _ _ Hr Hlo).
  - intros Hr. destruct (rnd (7 * i + 6)%nat <? additiveProb p) eqn:Hlt; [|reflexivity].
    pose proof (Order.ltb_leb_trans _ _ _ Hlt Hhi) as Hlt'.
    apply Order.ltb_asym in Hlt'. congruence.
Qed.

Lemma readmission_draw_extremes_witness :
  let p := nth 0 (generateMaternityData sampleRand 2) samplePatient in
  (0.05 <=? additiveProb p) = true
  /\ ((sampleRand (7 * 0 + 6)%nat <? 0.05) = true -> readmitted p = true)
  /\ ((0.65 <=? sampleRand (7 * 0 + 6)%nat) = true -> readmitted p = false).
Proof.
  apply (readmission_draw_extremes sampleRand 2 0). reflexivity.
Defined.

(** X5.  Each risk factor moves the readmission probability the way
    the rule says, also after rounding: complications, a Rural location
    and an age above 35 raise it, a Cesarean delivery never lowers it,
    and for a Vaginal delivery a stay below 3 days raises it. *)
Theorem readmissionProb_risk_factors (a l : float) (dt : DeliveryType) (c : bool)
  (loc : Location) :
  (readmissionProb a dt false l loc <? readmissionProb a dt true l loc) = true
  /\ (readmissionProb a dt c l Urban <? readmissionProb a dt c l Rural) = true
  /\ (readmissionProb a Vaginal c l loc <=? readmissionProb a Cesarean c l loc) = true
  /\ (forall a' : float,
         (35 <? a) = false -> (35 <? a') = true ->
         (readmissionProb a dt c l loc <? readmissionProb a' dt c l loc) = true)
  /\ (forall l' : float,
         (l <? 3) = false -> (l' <? 3) = true ->
         (readmissionProb a Vaginal c l loc <? readmissionProb a Vaginal c l' loc) = true).
Proof.
  unfold readmissionProb.
  split; [|split; [|split; [|split]]].
  - destruct dt, loc, (35 <? a), (l <? 3); reflexivity.
  - destruct dt, c, (35 <? a), (l <? 3); reflexivity.
  - destruct c, loc, (35 <? a), (l <? 3); reflexivity.
  - intros a' -> ->. destruct dt, c, loc, (l <? 3); reflexivity.
  - intros l' -> ->. destruct c, loc, (35 <? a); reflexivity.
Qed.

Lemma readmissionProb_risk_factors_witness :
  (readmissionProb 30 Vaginal false 4 Urban <? readmissionProb 30 Vaginal false 2 Urban)
  = true.
Proof.
  destruct (readmissionProb_risk_factors 30 4 Vaginal false Urban) as (_ & _ & _ & _ & H).
  apply H; reflexivity.
Defined.

(** ** The model *)

Section ModelFacts.

Import Loops.

Variable Math_exp : float -> float.

(** X6.  [fit] starts again from zero weights: it keeps the two
    hyperparameters of the model, its result on a non-empty matrix
    depends on the model only through them, and fitting the fitted model
    again on the same data gives the same model. *)
Theorem fit_restarts_from_zero (m : LogisticRegression) (X : list (list float))
  (y : list float) :
  (learningRate (fst (fit Math_exp m X y)) = learningRate m
   /\ iterations (fst (fit Math_exp m X y)) = iterations m)
  /\ (forall m' : LogisticRegression,
         X <> [] -> learningRate m' = learningRate m -> iterations m' = iterations m ->
         fit Math_exp m' X y = fit Math_exp m X y)
  /\ fit Math_exp (fst (fit Math_exp m X y)) X y = fit Math_exp m X y.
Proof.
  assert (Hkeep : learningRate (fst (fit Math_exp m X y)) = learningRate m
                  /\ iterations (fst (fit Math_exp m X y)) = iterations m).
  { destruct X as [|X0 X']; [split; reflexivity|].
    unfold fit. cbn [fst]. rewrite for_range_iter.
    set (m0 := {| weights := zeros (length X0); bias := 0;
                  learningRate := learningRate m; iterations := iterations m |}).
    destruct (fit_loop_invariant Math_exp (X0 :: X') y (length (X0 :: X')) (length X0)
                (iterations m) m0 (repeat_length _ _)) as (_ & Hr & Hi).
    split; assumption. }
  assert (Hdep : forall m' : LogisticRegression,
             X <> [] -> learningRate m' = learningRate m ->
             iterations m' = iterations m ->
             fit Math_exp m' X y = fit Math_exp m X y).
  { intros m' HX Hr Hi. destruct X as [|X0 X']; [contradiction|].
    unfold fit. rewrite Hr, Hi. reflexivity. }
  split; [exact Hkeep | split; [exact Hdep|]].
  destruct X as [|X0 X'] eqn:HX; [reflexivity|].
  rewrite <- HX in *. destruct Hkeep as [Hr Hi].
  apply Hdep; [rewrite HX; discriminate | exact Hr | exact Hi].
Qed.

(** X7.  When there are fewer labels than rows, the read [y[j]] past the
    end of the labels is [undefined] and one iteration is enough to turn
    the bias and every weight into [NaN], whatever the features are. *)
Theorem fit_missing_labels (m : LogisticRegression) (X : list (list float))
  (y : list float) :
  X <> [] -> (length y < length X)%nat -> (0 < iterations m)%nat ->
  fit Math_exp m X y
  = ({| weights := repeat nan (length (hd [] X)); bias := nan;
        learningRate := learningRate m; iterations := iterations m |},
     Returns tt).
Proof.
  intros HX Hy Hit. destruct X as [|X0 X']; [contradiction|].
  unfold fit. cbn [hd]. rewrite for_range_iter. f_equal.
  set (m0 := {| weights := zeros (length X0); bias := 0;
                learningRate := learningRate m; iterations := iterations m |}).
  destruct (iterations m) as [|rounds] eqn:Hrounds; [lia|].
  rewrite Nat.iter_succ.
  destruct (fit_loop_invariant Math_exp (X0 :: X') y (length (X0 :: X')) (length X0)
              rounds m0 (repeat_length _ _)) as (Hw & Hr & Hi).
  rewrite (fitIteration_nan_error Math_exp _ (X0 :: X') y _ _ (length y) Hy Hw).
  - rewrite Hr, Hi. reflexivity.
  - replace (get y (length y)) with nan
      by (unfold get; symmetry; apply nth_overflow; lia).
    apply sub_nan_r.
Qed.

(** X8.  A prediction only reads the weights at the indices of the
    feature vector: two models with the same bias whose weights agree
    on the first [length x] places give the same probability and the
    same label for [x]. *)
Theorem predict_reads_leading_weights (m m' : LogisticRegression) (x : list float) :
  bias m = bias m' ->
  firstn (length x) (weights m) = firstn (length x) (weights m') ->
  predictProba Math_exp m x = predictProba Math_exp m' x
  /\ predict Math_exp m x = predict Math_exp m' x.
Proof.
  intros Hb Hw.
  assert (Hp : predictProba Math_exp m x = predictProba Math_exp m' x).
  { unfold predictProba, linearModel, reduce. rewrite Hb. do 2 f_equal.
    apply reduce_from_ext. intros k Hk.
    rewrite <- (get_firstn (weights m) (length x) k) by lia.
    rewrite <- (get_firstn (weights m') (length x) k) by lia.
    now rewrite Hw. }
  split; [exact Hp|]. unfold predict. now rewrite Hp.
Qed.

(** X9.  The training run of the start-up effect.  On a non-empty
    cohort it returns normally, and the model it leaves is the gradient
    descent of the specification at rate 0.5 for 2000 rounds over the
    six encoded features and the 0/1 labels; on the 500 generated
    records it therefore never throws.  On an empty cohort it throws and
    leaves the freshly constructed model. *)
Theorem trainModel_descent (rawData : list Patient) :
  (rawData <> [] ->
   trainModel Math_exp rawData
   = (let wb := descent Math_exp 0.5 2000 6
                  (combine (map preprocessPatient rawData)
                     (map (fun p => if readmitted p then 1 else 0) rawData)) in
      {| weights := fst wb; bias := snd wb; learningRate := 0.5; iterations := 2000 |},
      Returns tt))
  /\ (rawData = [] ->
      trainModel Math_exp rawData = (new_LogisticRegression 0.5 2000, Throws TypeError))
  /\ (forall rnd : Rand,
         rawData = generateMaternityData rnd 500 ->
         snd (trainModel Math_exp rawData) = Returns tt).
Proof.
  assert (Hne : rawData <> [] ->
     trainModel Math_exp rawData
     = (let wb := descent Math_exp 0.5 2000 6
                    (combine (map preprocessPatient rawData)
                       (map (fun p => if readmitted p then 1 else 0) rawData)) in
        {| weights := fst wb; bias := snd wb; learningRate := 0.5; iterations := 2000 |},
        Returns tt)).
  { intros HX. unfold trainModel. cbv zeta.
    rewrite fit_descent.
    - destruct rawData as [|p ps]; [contradiction|]. reflexivity.
    - destruct rawData; [contradiction | discriminate].
    - now rewrite !length_map.
    - unfold uniform_rows. apply Forall_forall. intros row Hin.
      apply in_map_iff in Hin. destruct Hin as (p & <- & _).
      destruct rawData as [|p0 ps]; [contradiction|]. reflexivity. }
  split; [exact Hne | split].
  - intros ->. reflexivity.
  - intros rnd ->. rewrite Hne; [reflexivity|].
    intros Hnil. apply (f_equal (@length Patient)) in Hnil.
    rewrite Generator.generateMaternityData_map, length_map, length_seq in Hnil.
    discriminate Hnil.
Qed.

(** [Math.exp(NaN)] is [NaN]. *)
Hypothesis exp_nan : Math_exp nan = nan.

(** X10.  A feature vector longer than the weight vector reads
    [undefined] weights: its probability is [NaN] and its label is 0,
    whatever the weights, the bias and the features are. *)
Theorem predict_past_weights (m : LogisticRegression) (x : list float) :
  (length (weights m) < length x)%nat ->
  predictProba Math_exp m x = nan /\ predict Math_exp m x = 0.
Proof.
  intros Hlen.
  assert (Hp : predictProba Math_exp m x = nan).
  { unfold predictProba, linearModel, reduce.
    rewrite reduce_from_past_weights by lia.
    rewrite add_nan_l. exact (sigmoid_nan Math_exp exp_nan). }
  split; [exact Hp|]. unfold predict. rewrite Hp. reflexivity.
Qed.

(** X11.  [fit] does not check that the rows have the width of the
    first one.  A longer row reads [undefined] weights and a shorter row
    has [undefined] features, so on a ragged matrix the bias and every
    weight are [NaN] after two iterations (after one, when some row is
    longer than the first), whatever the labels are. *)
Theorem fit_ragged_matrix (m : LogisticRegression) (X : list (list float))
  (y : list float) :
  X <> [] -> ~ uniform_rows X ->
  let poisoned :=
    ({| weights := repeat nan (length (hd [] X)); bias := nan;
        learningRate := learningRate m; iterations := iterations m |},
     Returns tt) in
  ((2 <= iterations m)%nat -> fit Math_exp m X y = poisoned)
  /\ (Exists (fun row => (length (hd [] X) < length row)%nat) X ->
      (1 <= iterations m)%nat -> fit Math_exp m X y = poisoned).
Proof.
  intros HX Hragged. cbv zeta.
  destruct X as [|X0 X'] eqn:EX; [contradiction|]. rewrite <- EX in *.
  set (nf := length (hd [] X)). set (n := length X).
  assert (Hnf : length X0 = nf) by (unfold nf; rewrite EX; reflexivity).
  assert (Hfit : forall r,
             iterations m = S r ->
             (forall m1, length (weights m1) = nf ->
                         learningRate m1 = learningRate m ->
                         iterations m1 = iterations m ->
                         Nat.iter r (fitIteration Math_exp X y n nf)
                           {| weights := zeros nf; bias := 0;
                              learningRate := learningRate m;
                              iterations := iterations m |} = m1 ->
                         exists j, (j < n)%nat
                           /\ sigmoid Math_exp (linearModel m1 (nth j X [])) - get y j
                              = nan) ->
             fit Math_exp m X y
             = ({| weights := repeat nan nf; bias := nan;
                   learningRate := learningRate m; iterations := iterations m |},
                Returns tt)).
  { intros r Hr Hstep. unfold fit. rewrite EX at 1. rewrite for_range_iter.
    fold n. rewrite Hnf. f_equal.
    set (m0 := {| weights := zeros nf; bias := 0;
                  learningRate := learningRate m; iterations := iterations m |}).
    rewrite Hr, Nat.iter_succ.
    destruct (fit_loop_invariant Math_exp X y n nf r m0 (repeat_length _ _)) as (Hw & Hl & Hi).
    destruct (Hstep _ Hw Hl Hi eq_refl) as (j & Hj & Hdiff).
    rewrite (fitIteration_nan_error Math_exp _ X y n nf j Hj Hw Hdiff).
    rewrite Hl, Hi. unfold m0. cbn [learningRate iterations].
    now rewrite Hr. }
  assert (Hlong : forall j m1,
             (nf < length (nth j X []))%nat -> length (weights m1) = nf ->
             sigmoid Math_exp (linearModel m1 (nth j X [])) - get y j = nan).
  { intros j m1 Hlen Hw. unfold linearModel, reduce.
    rewrite reduce_from_past_weights by lia.
    now rewrite add_nan_l, (sigmoid_nan Math_exp exp_nan), sub_nan_l. }
  assert (Hrow : exists j, (j < n)%nat /\ length (nth j X []) <> nf).
  { apply neg_Forall_Exists_neg in Hragged.
    - apply Exists_exists in Hragged. destruct Hragged as (row & Hin & Hlen).
      destruct (In_nth X row [] Hin) as (j & Hj & <-). exists j. split; assumption.
    - intros row. apply Nat.eq_dec. }
  split.
  - intros Hit. destruct Hrow as (j & Hj & Hlen).
    assert (nf < length (nth j X []) \/ length (nth j X []) < nf)%nat
      as [Hgt | Hlt] by lia.
    + destruct (iterations m) as [|r] eqn:Hr; [lia|].
      apply (Hfit r eq_refl). intros m1 Hw _ _ _. exists j. split; [exact Hj|].
      exact (Hlong j m1 Hgt Hw).
    + destruct (iterations m) as [|[|r]] eqn:Hr; try lia.
      apply (Hfit (S r) eq_refl). intros m1 Hw _ _ Hm1.
      assert (0 < n)%nat as Hn by lia.
      exists 0%nat. split; [exact Hn|].
      assert (Hk : get (weights m1) (length (nth j X [])) = nan).
      { rewrite <- Hm1, Nat.iter_succ.
        set (m0 := {| weights := zeros nf; bias := 0;
                      learningRate := learningRate m; iterations := S (S r) |}).
        destruct (fit_loop_invariant Math_exp X y n nf r m0 (repeat_length _ _)) as (Hw0 & _).
        apply (fitIteration_nan_feature Math_exp _ X y n nf j); try assumption.
        unfold get. apply nth_overflow. lia. }
      assert (HX0 : length (nth 0 X []) = nf) by (rewrite EX; exact Hnf).
      unfold linearModel, reduce.
      rewrite (reduce_from_nan_weight _ _ 0 (length (nth j X [])))
        by (try exact Hk; rewrite HX0; lia).
      now rewrite add_nan_l, (sigmoid_nan Math_exp exp_nan), sub_nan_l.
  - intros Hex Hit. apply Exists_exists in Hex. destruct Hex as (row & Hin & Hlen).
    destruct (In_nth X row [] Hin) as (j & Hj & <-).
    destruct (iterations m) as [|r] eqn:Hr; [lia|].
    apply (Hfit r eq_refl). intros m1 Hw _ _ _. exists j. split; [exact Hj|].
    exact (Hlong j m1 Hlen Hw).
Qed.

End ModelFacts.

Lemma fit_restarts_from_zero_witness :
  fit exp_instance zeroModel sampleBatch sampleLabels
  = fit exp_instance (new_LogisticRegression 0.5 0) sampleBatch sampleLabels.
Proof.
  destruct (fit_restarts_from_zero exp_instance (new_LogisticRegression 0.5 0)
              sampleBatch sampleLabels) as (_ & H & _).
  apply H; [discriminate | reflexivity | reflexivity].
Defined.

Lemma fit_missing_labels_witness :
  fit exp_instance (new_LogisticRegression 0.5 1) sampleBatch [1; 0]
  = ({| weights := [nan; nan]; bias := nan; learningRate := 0.5; iterations := 1 |},
     Returns tt).
Proof.
  apply (fit_missing_labels exp_instance (new_LogisticRegression 0.5 1) sampleBatch [1; 0]).
  - discriminate.
  - cbn. lia.
  - cbn. lia.
Defined.

Lemma predict_reads_leading_weights_witness :
  predictProba exp_instance zeroModel [0.5; 1]
  = predictProba exp_instance
      {| weights := [0; 0; 1]; bias := 0; learningRate := 0.1; iterations := 3 |}
      [0.5; 1].
Proof.
  apply (predict_reads_leading_weights exp_instance zeroModel
           {| weights := [0; 0; 1]; bias := 0; learningRate := 0.1; iterations := 3 |}
           [0.5; 1]); reflexivity.
Defined.

Lemma trainModel_descent_witness :
  snd (trainModel exp_instance (generateMaternityData sampleRand 500)) = Returns tt.
Proof.
  destruct (trainModel_descent exp_instance (generateMaternityData sampleRand 500))
    as (_ & _ & H).
  exact (H sampleRand eq_refl).
Defined.

Lemma predict_past_weights_witness :
  predictProba exp_instance zeroModel [1; 1; 1; 1; 1; 1; 1] = nan
  /\ predict exp_instance zeroModel [1; 1; 1; 1; 1; 1; 1] = 0.
Proof.
  apply (predict_past_weights exp_instance exp_instance_nan zeroModel).
  cbn. lia.
Defined.

Lemma fit_ragged_matrix_witness :
  fit exp_instance (new_LogisticRegression 0.1 2) [[1; 2]; [1]] [0; 1]
  = ({| weights := [nan; nan]; bias := nan; learningRate := 0.1; iterations := 2 |},
     Returns tt).
Proof.
  destruct (fit_ragged_matrix exp_instance exp_instance_nan
              (new_LogisticRegression 0.1 2) [[1; 2]; [1]] [0; 1]) as [H _].
  - discriminate.
  - intros Hu. apply Forall_inv_tail, Forall_inv in Hu. discriminate Hu.
  - apply H. cbn. lia.
Defined.

(** ** Quotients and differences *)

Module Quotient.

Local Open Scope Z_scope.

(** A positive count divided by itself is exactly 1. *)
Lemma num_div_self (n : nat) :
  0 < Z.of_nat n < 2 ^ 63 -> (num n / num n)%float = 1%float.
Proof.
  intros Hn. apply Prim2SF_inj. rewrite FloatAxioms.div_spec.
  destruct (Binary64.num_positive_finite n Hn) as (m & e & ->).
  unfold SF64div. cbn [SFdiv xorb]. unfold SFdiv_core_binary. cbv zeta.
  rewrite !Z.sub_diag.
  replace (Z.min (fexp prec emax 0) 0) with (-53) by (vm_compute; reflexivity).
  replace (0 - -53) with 53 by reflexivity.
  rewrite Z.shiftl_mul_pow2 by lia.
  destruct (Z.div_eucl (Zpos m * 2 ^ 53) (Zpos m)) as [q r] eqn:E.
  assert (Hq : q = Zpos m * 2 ^ 53 / Zpos m) by (unfold Z.div; now rewrite E).
  assert (Hr : r = (Zpos m * 2 ^ 53) mod Zpos m) by (unfold Z.modulo; now rewrite E).
  rewrite (Z.mul_comm (Zpos m)) in Hq, Hr.
  rewrite Z.div_mul in Hq by lia. rewrite Z.mod_mul in Hr by lia.
  subst q r.
  assert (Hloc : new_location (Zpos m) 0 = loc_Exact).
  { unfold new_location, new_location_even, new_location_odd.
    destruct (Z.even (Zpos m)); reflexivity. }
  rewrite Hloc. vm_compute. reflexivity.
Qed.

(** Zero divided by a positive count is zero. *)
Lemma num_div_zero (n : nat) :
  0 < Z.of_nat n < 2 ^ 63 -> (num 0 / num n)%float = 0%float.
Proof.
  intros Hn. apply Prim2SF_inj. rewrite FloatAxioms.div_spec.
  destruct (Binary64.num_positive_finite n Hn) as (m & e & ->).
  replace (Prim2SF (num 0)) with (S754_zero false) by (vm_compute; reflexivity).
  vm_compute. reflexivity.
Qed.

(** The sign given to [binary_round_aux] only ends up as the sign of
    the result. *)
Lemma SFabs_binary_round_aux (s s' : bool) (m e : Z) (l : SpecFloat.location) :
  SFabs (binary_round_aux prec emax s m e l) = SFabs (binary_round_aux prec emax s' m e l).
Proof.
  unfold binary_round_aux.
  destruct (shr_fexp prec emax m e l) as [mrs' e'].
  destruct (shr_fexp prec emax _ e' loc_Exact) as [mrs'' e''].
  destruct (shr_m mrs''); try reflexivity.
  destruct (e'' <=? emax - prec); reflexivity.
Qed.

Lemma SFabs_binary_normalize_opp (z e : Z) :
  SFabs (binary_normalize prec emax z e false)
  = SFabs (binary_normalize prec emax (- z) e false).
Proof.
  destruct z as [|p|p]; cbn [Z.opp binary_normalize]; [reflexivity| |];
    unfold binary_round;
    destruct (shl_align p e (fexp prec emax (Zpos (digits2_pos p) + e))) as [mz ez];
    apply SFabs_binary_round_aux.
Qed.

Lemma SFabs_SFsub_comm (x y : spec_float) :
  SFabs (SFsub prec emax x y) = SFabs (SFsub prec emax y x).
Proof.
  destruct x as [sx | sx | | sx mx ex], y as [sy | sy | | sy my ey];
    cbn [SFsub SFabs]; try reflexivity;
    try (destruct sx, sy; reflexivity).
  rewrite (Z.min_comm ey ex).
  set (a := Zpos (fst (shl_align mx ex (Z.min ex ey)))).
  set (b := Zpos (fst (shl_align my ey (Z.min ex ey)))).
  replace (cond_Zopp sy b - cond_Zopp sx a)
    with (- (cond_Zopp sx a - cond_Zopp sy b))
    by (destruct sx, sy; cbn [cond_Zopp]; lia).
  apply SFabs_binary_normalize_opp.
Qed.

(** The distance between two numbers does not depend on their order. *)
Lemma abs_sub_comm (x y : float) : abs (x - y) = abs (y - x).
Proof.
  apply Prim2SF_inj. rewrite !FloatAxioms.abs_spec, !FloatAxioms.sub_spec.
  apply SFabs_SFsub_comm.
Qed.

Lemma is_nan_true_inv (x : float) : is_nan x = true -> x = nan.
Proof.
  unfold is_nan. rewrite FloatAxioms.eqb_spec. intros H.
  apply Prim2SF_inj. Binary64.eval_Prim2SF nan.
  destruct (Prim2SF x) as [s | s | | s m e] eqn:E; [| | reflexivity |];
    rewrite Binary64.SFeqb_refl in H by discriminate; discriminate H.
Qed.


End Quotient.

(** ** Counting *)

Module Counting.

Lemma filter_complement {A : Type} (f g : A -> bool) (l : list A) :
  (forall a, g a = negb (f a)) ->
  (length (List.filter f l) + length (List.filter g l) = length l)%nat.
Proof.
  intros H. induction l as [|a l IH]; [reflexivity|].
  cbn [List.filter]. rewrite (H a).
  destruct (f a); cbn [negb length]; lia.
Qed.



Lemma filter_all {A : Type} (f : A -> bool) (l : list A) :
  (forall a, In a l -> f a = true) -> List.filter f l = l.
Proof.
  intros H. induction l as [|a l IH]; [reflexivity|].
  cbn [List.filter]. rewrite (H a (or_introl eq_refl)).
  f_equal. apply IH. intros b Hb. apply H. now right.
Qed.

Lemma filter_none {A : Type} (f : A -> bool) (l : list A) :
  (forall a, In a l -> f a = false) -> List.filter f l = [].
Proof.
  intros H. induction l as [|a l IH]; [reflexivity|].
  cbn [List.filter]. rewrite (H a (or_introl eq_refl)).
  apply IH. intros b Hb. apply H. now right.
Qed.




End Counting.

(** ** The ethics audit *)

Section AuditFacts.

Variable Math_exp : float -> float.

(** X12.  The two subgroups of each pair split the cohort, so in the
    audit of a non-empty cohort (of fewer than 2^63 records) at most one
    accuracy of each pair is [NaN]. *)
Theorem ethicsAudit_pairs (model : LogisticRegression) (data : list Patient) :
  data <> [] -> (Z.of_nat (length data) < 2 ^ 63)%Z ->
  exists a : EthicsAudit,
    ethicsAudit Math_exp (Some model) data = Some a
    /\ (is_nan (accVaginal a) = false \/ is_nan (accCesarean a) = false)
    /\ (is_nan (accUrban a) = false \/ is_nan (accRural a) = false).
Proof.
  intros Hne Hlen.
  assert (Hpos : (0 < length data)%nat) by (destruct data; [contradiction | cbn; lia]).
  assert (Hacc : forall f : Patient -> bool,
             (0 < length (List.filter f data))%nat ->
             is_nan (auditGroup Math_exp model data f) = false).
  { intros f Hf. unfold auditGroup.
    pose proof (filter_length_le f data) as H1.
    pose proof (filter_length_le
                  (fun p => predict Math_exp model (preprocessPatient p)
                            =? (if readmitted p then 1 else 0))
                  (List.filter f data)) as H2.
    apply Binary64.percentage_not_nan; lia. }
  unfold ethicsAudit.
  destruct (Nat.eqb_spec (length data) 0) as [E | _]; [lia|].
  eexists. split; [reflexivity|].
  cbn [accVaginal accCesarean accUrban accRural]. split.
  - pose proof (Counting.filter_complement
                  (fun p => DeliveryType_eqb (deliveryType p) Vaginal)
                  (fun p => DeliveryType_eqb (deliveryType p) Cesarean) data) as Hsplit.
    rewrite <- Hsplit in Hpos by (intros p; destruct (deliveryType p); reflexivity).
    destruct (length (List.filter
                        (fun p => DeliveryType_eqb (deliveryType p) Vaginal) data))
      as [|k] eqn:Hk.
    + right. apply Hacc. lia.
    + left. apply Hacc. lia.
  - pose proof (Counting.filter_complement
                  (fun p => Location_eqb (location p) Urban)
                  (fun p => Location_eqb (location p) Rural) data) as Hsplit.
    rewrite <- Hsplit in Hpos by (intros p; destruct (location p); reflexivity).
    destruct (length (List.filter (fun p => Location_eqb (location p) Urban) data))
      as [|k] eqn:Hk.
    + right. apply Hacc. lia.
    + left. apply Hacc. lia.
Qed.

(** X13.  The two ends of the accuracy scale are exact: a non-empty
    subgroup in which every prediction equals the label scores exactly
    100, and one in which none does scores exactly 0. *)
Theorem auditGroup_extremes (model : LogisticRegression) (data : list Patient)
  (filter : Patient -> bool) :
  List.filter filter data <> [] -> (Z.of_nat (length data) < 2 ^ 63)%Z ->
  ((forall p, In p data -> filter p = true ->
              (predict Math_exp model (preprocessPatient p) =? label p) = true) ->
   auditGroup Math_exp model data filter = 100)
  /\ ((forall p, In p data -> filter p = true ->
                 (predict Math_exp model (preprocessPatient p) =? label p) = false) ->
      auditGroup Math_exp model data filter = 0).
Proof.
  intros Hne Hlen.
  pose proof (filter_length_le filter data) as Hle.
  assert (Hpos : (0 < Z.of_nat (length (List.filter filter data)) < 2 ^ 63)%Z).
  { destruct (List.filter filter data); [contradiction | cbn [length] in *; lia]. }
  split; intros Hall; unfold auditGroup.
  - rewrite Counting.filter_all.
    + rewrite (Quotient.num_div_self _ Hpos). reflexivity.
    + intros p Hp. apply filter_In in Hp. destruct Hp as [Hp Hf].
      exact (Hall p Hp Hf).
  - rewrite Counting.filter_none.
    + change (length (@nil Patient)) with 0%nat.
      rewrite (Quotient.num_div_zero _ Hpos). reflexivity.
    + intros p Hp. apply filter_In in Hp. destruct Hp as [Hp Hf].
      exact (Hall p Hp Hf).
Qed.

End AuditFacts.

Lemma ethicsAudit_pairs_witness :
  exists a : EthicsAudit,
    ethicsAudit exp_instance (Some zeroModel) cesareanUrbanCohort = Some a
    /\ (is_nan (accVaginal a) = false \/ is_nan (accCesarean a) = false)
    /\ (is_nan (accUrban a) = false \/ is_nan (accRural a) = false).
Proof.
  apply (ethicsAudit_pairs exp_instance zeroModel cesareanUrbanCohort).
  - discriminate.
  - reflexivity.
Defined.

Lemma auditGroup_extremes_witness :
  auditGroup exp_instance zeroModel cesareanUrbanCohort (fun _ => true) = 100.
Proof.
  destruct (auditGroup_extremes exp_instance zeroModel cesareanUrbanCohort
              (fun _ => true)) as [H _].
  - discriminate.
  - reflexivity.
  - apply H. intros p [<- | []] _. vm_compute. reflexivity.
Defined.

(** X14.  The accuracy gap of the bias panel does not depend on the
    order of its two subgroups, so the bias flag is unchanged when the
    subgroups of each pair are exchanged. *)
Theorem biasFlag_symmetric (a : option EthicsAudit) :
  (forall f g : EthicsAudit -> float, accuracyGap a f g = accuracyGap a g f)
  /\ biasFlag (option_map swapSubgroups a) = biasFlag a.
Proof.
  split.
  - intros f g. unfold accuracyGap. apply Quotient.abs_sub_comm.
  - destruct a as [a|]; [|reflexivity].
    unfold biasFlag, accuracyGap, field, swapSubgroups.
    cbn [option_map accVaginal accCesarean accUrban accRural].
    rewrite (Quotient.abs_sub_comm (or_zero (Some (accCesarean a)))).
    rewrite (Quotient.abs_sub_comm (or_zero (Some (accRural a)))).
    reflexivity.
Qed.

(** ** The exploratory statistics *)

Module StatsFacts.








End StatsFacts.





(** ** The risk display *)

Section RiskFacts.

Variable Math_exp : float -> float.

(** X17.  The label and the advice of the prediction panel.  The advice
    is the immediate follow-up exactly for the band High; a higher
    probability never gives a lower band; [NaN] is shown as Low; and a
    probability shown as High is one that [predict] labels 1, so a
    record labelled 0 is never shown as High.  The probability shown is
    the one [handlePredict] computes from the encoded form input, and
    without a model the display is left as it is. *)
Theorem riskBand_consistent (model : LogisticRegression) (predictionInput : Patient)
  (shown : option float) :
  (forall p : float, advice p = ImmediateFollowUp <-> riskBand p = HighRisk)
  /\ (forall p q : float,
         (p <=? q) = true -> (riskRank (riskBand p) <= riskRank (riskBand q))%nat)
  /\ (forall p : float, is_nan p = true -> riskBand p = LowRisk)
  /\ (forall prob : float,
         handlePredict Math_exp (Some model) predictionInput shown = Some prob ->
         riskBand prob = HighRisk ->
         predict Math_exp model (preprocessPatient predictionInput) = 1)
  /\ handlePredict Math_exp None predictionInput shown = shown.
Proof.
  split; [|split; [|split; [|split]]].
  - intros p. unfold advice, riskBand.
    destruct (0.6 <? p); [tauto|].
    destruct (0.3 <? p); split; discriminate.
  - intros p q Hpq. unfold riskBand.
    destruct (0.6 <? p) eqn:Hp6.
    + rewrite (Order.ltb_leb_trans _ _ _ Hp6 Hpq). cbn [riskRank]. lia.
    + destruct (0.3 <? p) eqn:Hp3.
      * rewrite (Order.ltb_leb_trans _ _ _ Hp3 Hpq).
        destruct (0.6 <? q); cbn [riskRank]; lia.
      * cbn [riskRank]. lia.
  - intros p Hp. rewrite (Quotient.is_nan_true_inv p Hp). reflexivity.
  - intros prob Hh Hband. cbn [handlePredict] in Hh. injection Hh as <-.
    unfold riskBand in Hband.
    destruct (0.6 <? predictProba Math_exp model (preprocessPatient predictionInput))
      eqn:H6; [|destruct (0.3 <? _); discriminate Hband].
    unfold predict.
    assert (H56 : (0.5 <=? 0.6) = true) by reflexivity.
    rewrite (Order.ltb_leb _ _ (Order.leb_ltb_trans 0.5 0.6 _ H56 H6)). reflexivity.
  - reflexivity.
Qed.

End RiskFacts.

Lemma riskBand_consistent_witness :
  (riskRank (riskBand 0.25) <= riskRank (riskBand 0.75))%nat.
Proof.
  destruct (riskBand_consistent exp_instance zeroModel samplePatient None)
    as (_ & H & _).
  apply H. reflexivity.
Defined.
